(** * Code-aggregation tools: directory trees, filtered aggregation, manifests

    A shallow embedding of the extraction scripts under [src/tools]:

    - [extract_code.py]                  (module [ExtractCode])
    - [code_analysis/extract_server.py]  (module [ExtractServer])
    - [extract_db_code.py]               (module [ExtractDb])
    - [code_analysis/extract_auth.py]    (module [ExtractAuth])

    The file system is a finite tree whose directories list their entries in
    the order the operating system enumerates them.  Text is a [string] of
    bytes (UTF-8); Python compares strings by code point, which on UTF-8
    coincides with the byte-wise order [String.le]. *)

From Stdlib Require Import Ascii DecimalString.
From stdpp Require Import base list strings gmap sorting.

Set Warnings "-register-all".

(** ** Strings *)

Definition LF : ascii := "010"%char.
Definition nl : string := String LF "".

(** [c * n] for a one-character string [c]. *)
Fixpoint str_repeat (c : ascii) (n : nat) : string :=
  match n with
  | O => ""
  | S n' => String c (str_repeat c n')
  end.

(** [str(n)] for a non-negative integer. *)
Definition str_nat (n : nat) : string := NilZero.string_of_uint (Nat.to_uint n).

(** [''.join(l)] *)
Definition str_concat (l : list string) : string := foldr String.append "" l.

(** [sep.join(l)] *)
Definition str_join (sep : string) (l : list string) : string := String.concat sep l.

(** [s.startswith(p)] *)
Definition startswith (s p : string) : bool := String.prefix p s.

(** [pat in s]: [pat] occurs in [s] as a contiguous substring. *)
Fixpoint contains (pat s : string) : bool :=
  String.prefix pat s ||
  match s with
  | "" => false
  | String _ s' => contains pat s'
  end.

(** [s.endswith(suf)] *)
Fixpoint endswith (s suf : string) : bool :=
  String.eqb s suf ||
  match s with
  | "" => false
  | String _ s' => endswith s' suf
  end.

(** [s.lower()] on ASCII letters; other bytes are left as they are. *)
Definition lower_ascii (c : ascii) : ascii :=
  let n := nat_of_ascii c in
  if (65 <=? n) && (n <=? 90) then ascii_of_nat (n + 32) else c.

Fixpoint lower (s : string) : string :=
  match s with
  | "" => ""
  | String c s' => String (lower_ascii c) (lower s')
  end.

(** [s.count('\n')] *)
Fixpoint count_nl (s : string) : nat :=
  match s with
  | "" => 0
  | String c s' => (if Ascii.eqb c LF then 1 else 0) + count_nl s'
  end.

(** [f.readlines()] on text [s]: the segments ending in a newline, each with
    its newline, followed by the unterminated rest when it is not empty.
    [lines_go cur s] carries the segment read so far, reversed. *)
Fixpoint lines_go (cur : string) (s : string) : list string :=
  match s with
  | "" => if String.eqb cur "" then [] else [String.rev cur]
  | String c s' =>
      if Ascii.eqb c LF then String.rev (String c cur) :: lines_go "" s'
      else lines_go (String c cur) s'
  end.

Definition readlines (s : string) : list string := lines_go "" s.



Fixpoint has_char (c : ascii) (s : string) : bool :=
  match s with
  | "" => false
  | String c' s' => Ascii.eqb c c' || has_char c s'
  end.

(** [os.path.splitext(name)[1]] for a name without separators: the suffix
    that starts at the last dot, unless only dots precede that dot. *)
Fixpoint splitext_go (seen : bool) (s : string) : string :=
  match s with
  | "" => ""
  | String c s' =>
      if has_char "." s' then splitext_go (seen || negb (Ascii.eqb c ".")) s'
      else if Ascii.eqb c "." && seen then s else ""
  end.

Definition splitext_ext (name : string) : string := splitext_go false name.

(** [os.path.basename(p)]: what follows the last slash. *)
Fixpoint basename (p : string) : string :=
  match p with
  | "" => ""
  | String c p' =>
      if has_char "/" p' then basename p'
      else if Ascii.eqb c "/" then p' else p
  end.

(** [os.path.join(a, b)] (POSIX). *)
Definition path_join (a b : string) : string :=
  if startswith b "/" then b
  else if String.eqb a "" || endswith a "/" then a +:+ b
  else a +:+ "/" +:+ b.

(** [s.split('\n')]: always at least one piece. *)
Fixpoint split_go (sep : ascii) (cur : string) (s : string) : list string :=
  match s with
  | "" => [String.rev cur]
  | String c s' =>
      if Ascii.eqb c sep then String.rev cur :: split_go sep "" s'
      else split_go sep (String c cur) s'
  end.

Definition split_on (sep : ascii) (s : string) : list string := split_go sep "" s.

(** The rest of [s] after the prefix [p], when [s] starts with [p]. *)
Fixpoint strip_prefix (p s : string) : option string :=
  match p, s with
  | "", _ => Some s
  | String a p', String b s' => if Ascii.eqb a b then strip_prefix p' s' else None
  | String _ _, "" => None
  end.

(** [os.path.relpath(path, start)] for a [path] at or below [start], the
    only case the scripts produce; for other paths, where Python would climb
    with [..] segments, the path is returned as it is. *)
Definition relpath (path start : string) : string :=
  if String.eqb path start then "."
  else default path (strip_prefix (start +:+ "/") path).

(** The names of a relative path as [pathlib] keeps them: the pieces between
    slashes, without the empty ones and without [.]. *)
Definition path_parts (p : string) : list string :=
  filter (λ x, x ≠ "" ∧ x ≠ ".") (split_on "/" p).

(** Names that [*] and [**] of [glob] skip. *)
Definition ishidden (nm : string) : bool := startswith nm ".".

(** [sum(l)] *)
Definition sum_nat (l : list nat) : nat := foldr Nat.add 0 l.

(** ** Stable sorting

    [list.sort(key=...)] and [sorted] are stable: among entries that compare
    equal, the earlier stays first.  Insertion from the right, placing an
    entry before the first one it is not greater than, gives that order. *)

Section stable_sort.
Context {A : Type} (leb : A → A → bool).

Fixpoint insert_sorted (x : A) (l : list A) : list A :=
  match l with
  | [] => [x]
  | y :: l' => if leb x y then x :: l else y :: insert_sorted x l'
  end.

Definition stable_sort (l : list A) : list A := foldr insert_sorted [] l.
End stable_sort.

(** ** The file system *)

Inductive exn :=
  | UnicodeDecodeError (msg : string)
  | OSError (msg : string).

(** [str(e)] *)
Definition str_exn (e : exn) : string :=
  match e with
  | UnicodeDecodeError msg => msg
  | OSError msg => msg
  end.

(** What reading a file gives: its decoded text; or bytes that are not valid
    UTF-8 ([lossy] is the text that decoding with [errors='ignore'] keeps);
    or a file that cannot be opened at all. *)
Inductive file_data :=
  | Text (content : string)
  | Undecodable (lossy msg : string)
  | Unopenable (msg : string).

(** A directory lists its [children] in the order of the operating system;
    a directory that is not [readable] exists, but listing it fails. *)
Inductive node :=
  | File (name : string) (data : file_data)
  | Dir (name : string) (readable : bool) (children : list node).

Definition name (n : node) : string :=
  match n with
  | File nm _ => nm
  | Dir nm _ _ => nm
  end.

(** [os.path.isdir], [Path.is_dir] *)
Definition is_dir (n : node) : bool :=
  match n with
  | File _ _ => false
  | Dir _ _ _ => true
  end.

(** Path resolution of one name inside a list of directory entries. *)
Fixpoint resolve (children : list node) (nm : string) : option node :=
  match children with
  | [] => None
  | c :: rest => if String.eqb (name c) nm then Some c else resolve rest nm
  end.

(** The same resolution when each entry carries the result computed for it. *)
Fixpoint assoc {B} (nm : string) (l : list (string * B)) : option B :=
  match l with
  | [] => None
  | (k, v) :: rest => if String.eqb k nm then Some v else assoc nm rest
  end.

(** The entry [nm] of the directory [base], if there is one. *)
Definition lookup_child (base : node) (nm : string) : option node :=
  match base with
  | File _ _ => None
  | Dir _ _ children => resolve children nm
  end.

(** The entry a relative path names, going down from [n]; paths are
    taken without [..] segments. *)
Fixpoint resolve_path (n : node) (parts : list string) : option node :=
  match parts with
  | [] => Some n
  | nm :: rest =>
      match lookup_child n nm with
      | None => None
      | Some c => resolve_path c rest
      end
  end.

Definition not_a_directory (path : string) : exn :=
  OSError ("[Errno 20] Not a directory: '" +:+ path +:+ "'").
Definition permission_denied (path : string) : exn :=
  OSError ("[Errno 13] Permission denied: '" +:+ path +:+ "'").
Definition is_a_directory (path : string) : exn :=
  OSError ("[Errno 21] Is a directory: '" +:+ path +:+ "'").

(** [os.listdir], [Path.iterdir], [os.scandir] *)
Definition listdir (path : string) (n : node) : exn + list node :=
  match n with
  | File _ _ => inl (not_a_directory path)
  | Dir _ false _ => inl (permission_denied path)
  | Dir _ true children => inr children
  end.

(** [open(path, 'r', encoding='utf-8').read()] *)
Definition read_text (path : string) (n : node) : exn + string :=
  match n with
  | File _ (Text content) => inr content
  | File _ (Undecodable _ msg) => inl (UnicodeDecodeError msg)
  | File _ (Unopenable msg) => inl (OSError msg)
  | Dir _ _ _ => inl (is_a_directory path)
  end.

(** [open(path, 'r', encoding='utf-8', errors='ignore').read()] *)
Definition read_text_ignore (path : string) (n : node) : exn + string :=
  match n with
  | File _ (Text content) => inr content
  | File _ (Undecodable lossy _) => inr lossy
  | File _ (Unopenable msg) => inl (OSError msg)
  | Dir _ _ _ => inl (is_a_directory path)
  end.

(** Exceptions travel as the left summand. *)
Global Instance result_ret : MRet (sum exn) := λ A x, inr x.
Global Instance result_bind : MBind (sum exn) := λ A B f m,
  match m with
  | inl e => inl e
  | inr x => f x
  end.

(** ** glob

    [glob.glob(os.path.join(d, '**', '*' + ext), recursive=True)], for an
    [ext] without wildcard characters.  [**] expands to [d] and to every
    directory below it that can be reached through non-hidden directories, in
    pre-order; [*ext] then matches, in each of them, the non-hidden entries
    (files or directories) whose name ends in [ext].  Every match is the
    path together with the entry it resolves to. *)

Fixpoint rlistdir (path : string) (n : node) : list (string * node) :=
  match n with
  | File _ _ => []
  | Dir _ false _ => []
  | Dir _ true children =>
      mjoin ((λ c,
                if is_dir c && negb (ishidden (name c))
                then (path_join path (name c), c) :: rlistdir (path_join path (name c)) c
                else []) <$> children)
  end.

Definition glob_in_dir (ext : string) (d : string * node) : list (string * node) :=
  match listdir d.1 d.2 with
  | inl _ => []
  | inr names =>
      (λ c, (path_join d.1 (name c), c))
        <$> filter (λ c, ¬ ishidden (name c) ∧ endswith (name c) ext) names
  end.

Definition glob_recursive (path : string) (n : node) (ext : string) : list (string * node) :=
  mjoin (glob_in_dir ext <$> ((path, n) :: rlistdir path n)).

(** ** extract_code.py *)

Module ExtractCode.

(** The sort key of [generate_directory_tree]:
    [(not x.is_dir(), x.name.lower())], compared as a tuple
    ([False < True]). *)
Definition sort_key (x : node) : bool * string :=
  (negb (is_dir x), lower (name x)).

Definition key_leb (k1 k2 : bool * string) : bool :=
  match k1.1, k2.1 with
  | false, true => true
  | true, false => false
  | _, _ => String.leb k1.2 k2.2
  end.

Definition item_leb {B} (x y : node * B) : bool :=
  key_leb (sort_key x.1) (sort_key y.1).

(** The loop over the sorted [items]; [n] is [len(items)] and [index] the
    position of the head of [items] in the whole list.  Each item comes
    with the tree of its own directory, as a function of the prefix. *)
Fixpoint tree_loop (exclude_dirs : gset string) (prefix : string) (n index : nat)
    (items : list (node * (string → list string))) : list string :=
  match items with
  | [] => []
  | (item, subtree) :: rest =>
      if bool_decide (name item ∈ exclude_dirs)
      then tree_loop exclude_dirs prefix n (S index) rest
      else
        let is_last := index =? n - 1 in
        let current_prefix := if is_last then "└── " else "├── " in
        let next_prefix := if is_last then "    " else "│   " in
        (prefix +:+ current_prefix +:+ name item)
          :: (if is_dir item then subtree (prefix +:+ next_prefix) else [])
          ++ tree_loop exclude_dirs prefix n (S index) rest
  end.

(** [generate_directory_tree(directory, prefix, exclude_dirs)].  A
    directory that cannot be listed (or a path that is no directory) gives
    the empty tree: [iterdir] raises and the exception is caught.  The
    recursive call is taken on every listed entry before the entries are
    sorted, which keeps the recursion structural; the loop only uses it for
    the entries it renders. *)
Fixpoint generate_directory_tree (directory : node) (prefix : string)
    (exclude_dirs : gset string) {struct directory} : list string :=
  match directory with
  | File _ _ => []
  | Dir _ false _ => []
  | Dir _ true children =>
      let items :=
        stable_sort item_leb
          ((λ c, (c, λ p, generate_directory_tree c p exclude_dirs)) <$> children) in
      tree_loop exclude_dirs prefix (length items) 0 items
  end.

(** [os.walk(top)], top-down.  A step yields [(root, dirs, files)]; the
    consumer may edit [dirs] in place before the generator resumes, and the
    walk then descends into the edited list only: [edit] is that change.
    [root] is kept as the list of names below the starting directory.
    Directories that cannot be listed are skipped ([onerror] is unset). *)
Fixpoint os_walk (edit : list string → list string) (root : list string)
    (top : node) {struct top} : list (list string * list string * list node) :=
  match top with
  | File _ _ => []
  | Dir _ false _ => []
  | Dir _ true children =>
      let dirs := name <$> filter (λ c, is_dir c) children in
      let nondirs := filter (λ c, ¬ is_dir c) children in
      let below := (λ c, (name c, os_walk edit (root ++ [name c]) c)) <$> children in
      (root, dirs, nondirs)
        :: mjoin ((λ d, default [] (assoc d below)) <$> edit dirs)
  end.

Record state := State {
  code_content : list string;
  total_files : nat;
  total_lines : nat
}.

Record code_info := CodeInfo {
  content : string;
  info_total_files : nat;
  info_total_lines : nat;
  tree : list string
}.

(** [os.path.relpath(file_path, dir_path)] for the file that the names
    [parts] lead to from [dir_path]. *)
Definition relative_path (parts : list string) : string := str_join "/" parts.

Definition separator : string := nl +:+ str_repeat "=" 80 +:+ nl.

Definition header (relative_path : string) (line_count : nat) : string :=
  "File: " +:+ relative_path +:+ nl +:+
  "Lines: " +:+ str_nat line_count +:+ nl +:+
  str_repeat "-" 80 +:+ nl.

(** The string appended to [code_content] for a file read as [lines]. *)
Definition section (f : list string * list string) : string :=
  separator +:+ header (relative_path f.1) (length f.2) +:+ str_concat f.2.

(** [f.readlines()] on the opened file. *)
Definition open_readlines (file : node) : exn + list string :=
  lines ← read_text (name file) file; mret (readlines lines).

(** The body of the loop over [files]; a file that cannot be read is
    reported on the console and leaves the state as it was. *)
Definition process_file (code_extensions : gset string) (root : list string)
    (st : state) (file : node) : state :=
  let extension := lower (splitext_ext (name file)) in
  if bool_decide (extension ∈ code_extensions) then
    match open_readlines file with
    | inr lines =>
        let line_count := length lines in
        State
          (code_content st ++ [section (root ++ [name file], lines)])
          (total_files st + 1)
          (total_lines st + line_count)
    | inl e => st
    end
  else st.

(** The body of the loop over the walk. *)
Definition walk_step (code_extensions : gset string) (st : state)
    (step : list string * list string * list node) : state :=
  foldl (process_file code_extensions step.1.1) st step.2.

(** The edit [dirs[:] = [d for d in dirs if d not in exclude_dirs]]. *)
Definition prune (exclude_dirs : gset string) (dirs : list string) : list string :=
  filter (λ d, d ∉ exclude_dirs) dirs.

(** The state when the walk is over. *)
Definition walk_state (code_extensions exclude_dirs : gset string) (dir_path : node)
    : state :=
  foldl (walk_step code_extensions) (State [] 0 0)
    (os_walk (prune exclude_dirs) [] dir_path).

Definition extract_code_with (code_extensions exclude_dirs : gset string)
    (base_dir : node) (target_dir : string) : option code_info :=
  match lookup_child base_dir target_dir with
  | None => None
  | Some dir_path =>
      let tree := generate_directory_tree dir_path "" exclude_dirs in
      let st := walk_state code_extensions exclude_dirs dir_path in
      if total_files st =? 0 then None
      else Some (CodeInfo (str_concat (code_content st))
                   (total_files st) (total_lines st) tree)
  end.

Definition code_extensions : gset string :=
  {[ ".ts"; ".tsx"; ".js"; ".jsx"; ".py"; ".json";
     ".css"; ".scss"; ".less"; ".html"; ".md";
     ".sql"; ".prisma"; ".env"; ".yml"; ".yaml" ]}.

Definition exclude_dirs : gset string :=
  {[ "node_modules"; "dist"; ".git"; "__pycache__";
     "build"; "coverage"; ".next"; ".cache" ]}.

(** [extract_code_for_directory(base_dir, target_dir)]; [None] is the
    value the function returns for "nothing to report". *)
Definition extract_code_for_directory (base_dir : node) (target_dir : string)
    : option code_info :=
  extract_code_with code_extensions exclude_dirs base_dir target_dir.

(** [save_code_to_file(code_info, output_file, directory_name)]: the
    writes to the output file.  [upper] is [directory_name.upper()]. *)
Definition save_code_to_file (info : code_info) (upper : string) : list string :=
  [ upper +:+ " DIRECTORY SUMMARY" +:+ nl;
    str_repeat "=" 80 +:+ nl;
    "Total Files: " +:+ str_nat (info_total_files info) +:+ nl;
    "Total Lines: " +:+ str_nat (info_total_lines info) +:+ nl;
    str_repeat "=" 80 +:+ nl +:+ nl;
    "DIRECTORY STRUCTURE:" +:+ nl;
    str_repeat "-" 80 +:+ nl;
    str_join nl (tree info);
    nl +:+ str_repeat "=" 80 +:+ nl +:+ nl;
    content info ].

(** *** Views of the traversals, used to state properties *)

(** The traversal of [generate_directory_tree] where every line comes with
    the names that lead from the starting directory to the entry the line
    shows. *)
Fixpoint entries_loop (exclude_dirs : gset string) (rel : list string) (prefix : string)
    (n index : nat)
    (items : list (node * (list string → string → list (list string * string))))
    : list (list string * string) :=
  match items with
  | [] => []
  | (item, subtree) :: rest =>
      if bool_decide (name item ∈ exclude_dirs)
      then entries_loop exclude_dirs rel prefix n (S index) rest
      else
        let is_last := index =? n - 1 in
        let current_prefix := if is_last then "└── " else "├── " in
        let next_prefix := if is_last then "    " else "│   " in
        (rel ++ [name item], prefix +:+ current_prefix +:+ name item)
          :: (if is_dir item then subtree (rel ++ [name item]) (prefix +:+ next_prefix)
              else [])
          ++ entries_loop exclude_dirs rel prefix n (S index) rest
  end.

Fixpoint tree_entries (directory : node) (rel : list string) (prefix : string)
    (exclude_dirs : gset string) {struct directory} : list (list string * string) :=
  match directory with
  | File _ _ => []
  | Dir _ false _ => []
  | Dir _ true children =>
      let items :=
        stable_sort item_leb
          ((λ c, (c, λ r p, tree_entries c r p exclude_dirs)) <$> children) in
      entries_loop exclude_dirs rel prefix (length items) 0 items
  end.

(** The comparison of the sort, on the entries themselves. *)
Definition node_leb (x y : node) : bool := key_leb (sort_key x) (sort_key y).

(** The files the walk yields whose extension is in [code_extensions],
    each with the names that lead to it, in the order of the walk. *)
Definition matched_files (code_extensions : gset string)
    (walk : list (list string * list string * list node)) : list (list string * node) :=
  mjoin ((λ step,
            (λ file, (step.1.1 ++ [name file], file))
              <$> filter (λ file, lower (splitext_ext (name file)) ∈ code_extensions) step.2)
           <$> walk).

(** Those of them that can be read, with their lines. *)
Definition read_lines (m : list string * node) : option (list string * list string) :=
  match open_readlines m.2 with
  | inr lines => Some (m.1, lines)
  | inl _ => None
  end.

Definition included_files (code_extensions : gset string)
    (walk : list (list string * list string * list node))
    : list (list string * list string) :=
  omap read_lines (matched_files code_extensions walk).

(** What an entry of the tree is: names below [rel], none of them
    excluded, and a line that ends in the last of them. *)
Definition entry_ok (exclude_dirs : gset string) (rel : list string)
    (e : list string * string) : Prop :=
  ∃ parts nm indent,
    e.1 = rel ++ parts ++ [nm] ∧
    Forall (λ d, d ∉ exclude_dirs) (parts ++ [nm]) ∧
    e.2 = indent +:+ nm.

(** The state after [incl] more files have gone through the loop body. *)
Definition add_files (st : state) (incl : list (list string * list string)) : state :=
  State (code_content st ++ (section <$> incl))
    (total_files st + length incl)
    (total_lines st + sum_nat ((λ f, length f.2) <$> incl)).

(** The relative paths of the files that get a section, in the order in
    which the loop reaches them. *)
Definition processed_paths (code_extensions exclude_dirs : gset string) (dir_path : node)
    : list string :=
  relative_path
    <$> (included_files code_extensions (os_walk (prune exclude_dirs) [] dir_path)).*1.

End ExtractCode.

(** ** code_analysis/extract_server.py *)

Module ExtractServer.

Definition default_exclude_patterns : list string :=
  ["__pycache__"; ".git"; "node_modules"].

(** [any(pattern in path for pattern in exclude_patterns)] *)
Definition excluded (exclude_patterns : list string) (path : string) : bool :=
  existsb (λ pattern, contains pattern path) exclude_patterns.

Definition entry_leb {B} (x y : string * B) : bool := String.leb x.1 y.1.

(** The loop over the sorted [entries]; [n] is [len(entries)], [i] the
    index of the head, [result] the text accumulated so far.  Each entry
    comes with the tree of its own path, as a function of the prefix and of
    the last-sibling flag. *)
Fixpoint tree_loop (prefix : string) (is_last : bool) (n i : nat)
    (entries : list (string * (string → bool → exn + string)))
    (result : string) : exn + string :=
  match entries with
  | [] => mret result
  | (entry, subtree) :: rest =>
      let is_entry_last := i =? n - 1 in
      let next_prefix := prefix +:+ (if is_last then "    " else "│   ") in
      sub ← subtree next_prefix is_entry_last;
      tree_loop prefix is_last n (S i) rest (result +:+ sub)
  end.

(** [generate_directory_tree(base_path, target_path, prefix, is_last,
    exclude_patterns)]; [target] is the entry that [target_path] names.
    [os.listdir] is called outside any [try], so a directory that cannot
    be listed raises its [PermissionError].  As in [ExtractCode], the recursive call is taken on
    every listed entry before filtering and sorting. *)
Fixpoint generate_directory_tree (base_path target_path : string) (target : node)
    (prefix : string) (is_last : bool) (exclude_patterns : list string)
    {struct target} : exn + string :=
  if excluded exclude_patterns target_path then mret ""
  else
    let display_name := basename target_path in
    let result :=
      prefix +:+ (if is_last then "└── " else "├── ") +:+ display_name +:+ nl in
    match target with
    | File _ _ => mret result
    | Dir _ false _ => inl (permission_denied target_path)
    | Dir _ true children =>
        let below :=
          (λ c, (name c,
                 λ p l, generate_directory_tree base_path
                          (path_join target_path (name c)) c p l exclude_patterns))
            <$> children in
        let entries :=
          stable_sort entry_leb
            (filter (λ e, ¬ excluded exclude_patterns (path_join target_path e.1)) below) in
        tree_loop prefix is_last (length entries) 0 entries result
    end.

(** [count_lines_of_code(file_path)] *)
Definition count_lines_of_code (file : string * node) : nat :=
  match read_text file.1 file.2 with
  | inr text => length (readlines text)
  | inl _ => 0
  end.

Definition file_leb (x y : string * node) : bool := String.leb x.1 y.1.

(** [all_files] after the sort. *)
Definition all_files (target_dir : string) (target : node)
    (file_extensions : list string) : list (string * node) :=
  stable_sort file_leb (mjoin (glob_recursive target_dir target <$> file_extensions)).

Definition section_header (base_dir : string) (file : string * node) : string :=
  nl +:+ nl +:+ "// ---------------------- " +:+ relpath file.1 base_dir +:+
  " (" +:+ str_nat (count_lines_of_code file) +:+
  " lines) ----------------------" +:+ nl +:+ nl.

Definition decode_placeholder : string :=
  "// [File could not be decoded with UTF-8 encoding]" +:+ nl.

Definition section_body (file : string * node) : string :=
  match read_text file.1 file.2 with
  | inr file_content => file_content
  | inl (UnicodeDecodeError _) => decode_placeholder
  | inl e => "// [Error reading file: " +:+ str_exn e +:+ "]" +:+ nl
  end.

(** The two writes of the loop over [all_files]. *)
Definition section (base_dir : string) (file : string * node) : list string :=
  [section_header base_dir file; section_body file].

Definition summary (target_subfolder : string) (files : list (string * node))
    (total_loc : nat) (file_extensions : list string) (dir_tree : string) : list string :=
  [ "// SUMMARY FOR: " +:+ target_subfolder +:+ nl;
    "// Total files: " +:+ str_nat (length files) +:+ nl;
    "// Total lines of code: " +:+ str_nat total_loc +:+ nl;
    "// File extensions included: " +:+ str_join ", " file_extensions +:+ nl +:+ nl;
    "// DIRECTORY STRUCTURE:" +:+ nl;
    "// " +:+ str_join (nl +:+ "// ") (split_on LF dir_tree);
    nl +:+ nl +:+ "// ====================== FILE CONTENTS ======================" +:+ nl ].

(** [extract_code(base_dir, target_subfolder, output_filename,
    file_extensions)]; [base] is the directory [base_dir] names.  The
    result is the sequence of writes to the output file; [None] when the
    function returns before opening it; an exception when one escapes. *)
Definition extract_code (base_dir : string) (base : node) (target_subfolder : string)
    (file_extensions : list string) : exn + option (list string) :=
  let target_dir := path_join base_dir target_subfolder in
  match lookup_child base target_subfolder with
  | None => mret None
  | Some target =>
      if negb (is_dir target) then mret None
      else
        let files := all_files target_dir target file_extensions in
        let total_loc := sum_nat (count_lines_of_code <$> files) in
        dir_tree ← generate_directory_tree base_dir target_dir target "" true
                     default_exclude_patterns;
        mret (Some (summary target_subfolder files total_loc file_extensions dir_tree
                      ++ mjoin (section base_dir <$> files)))
  end.

Definition default_file_extensions : list string := [".ts"; ".js"; ".tsx"; ".jsx"].

End ExtractServer.

(** ** extract_db_code.py *)

Module ExtractDb.

Definition EXCLUDE_PATTERNS : list string := ["node_modules"; "dist"; ".git"].

(** [is_excluded(file_path)], for any list of patterns. *)
Definition is_excluded_with (patterns : list string) (file_path : string) : bool :=
  existsb (λ pattern, contains pattern file_path) patterns.

Definition is_excluded : string → bool := is_excluded_with EXCLUDE_PATTERNS.

Record file_record := FileRecord {
  path : string;
  lines : nat;
  content : string
}.

(** The record appended for one match of the glob. *)
Definition record_of (directory : string) (file : string * node) : file_record :=
  let relative_path := relpath file.1 directory in
  match read_text_ignore file.1 file.2 with
  | inr content => FileRecord relative_path (count_nl content + 1) content
  | inl e => FileRecord relative_path 0 ("ERROR: " +:+ str_exn e)
  end.

Definition dotted (ext : string) : string :=
  if startswith ext "." then ext else "." +:+ ext.

(** The matches the loops visit and do not skip, in the order of the visit. *)
Definition kept_files (patterns : list string) (directory : string) (dir : node)
    (file_extensions : list string) : list (string * node) :=
  mjoin ((λ ext,
            filter (λ file, ¬ is_excluded_with patterns file.1)
              (glob_recursive directory dir (dotted ext)))
           <$> file_extensions).

Definition record_leb (x y : file_record) : bool := String.leb (path x) (path y).

(** [extract_files(directory, file_extensions)]; [dir] is the entry that
    [directory] names, [None] when the path does not exist. *)
Definition extract_files_with (patterns : list string) (directory : string)
    (dir : option node) (file_extensions : list string) : list file_record :=
  match dir with
  | None => []
  | Some d =>
      stable_sort record_leb
        (record_of directory <$> kept_files patterns directory d file_extensions)
  end.

Definition extract_files : string → option node → list string → list file_record :=
  extract_files_with EXCLUDE_PATTERNS.

Definition rule : string :=
  "===========================================================" +:+ nl.

(** [enumerate(l, 1)] *)
Definition enumerate1 {A} (l : list A) : list (nat * A) := zip (seq 1 (length l)) l.

Definition listing_line (e : nat * file_record) : string :=
  str_nat e.1 +:+ ". " +:+ path e.2 +:+ " (" +:+ str_nat (lines e.2) +:+ " lines)" +:+ nl.

(** The five writes for one file in the last loop of [main]. *)
Definition file_section (e : nat * file_record) : list string :=
  [ rule;
    "FILE " +:+ str_nat e.1 +:+ ": " +:+ path e.2 +:+ nl;
    rule +:+ nl;
    content e.2;
    nl +:+ nl +:+ nl ].

Definition reported_total_files (files_data : list file_record) : nat :=
  length files_data.

Definition reported_total_lines (files_data : list file_record) : nat :=
  sum_nat (lines <$> files_data).

(** The writes of [main] to the output file; [None] when [files_data] is
    empty and [main] returns without opening it. *)
Definition main (directory : string) (dir : option node) (file_extensions : list string)
    : option (list string) :=
  let files_data := extract_files directory dir file_extensions in
  match files_data with
  | [] => None
  | _ =>
      Some ([ rule; "DATABASE LAYER CODE EXTRACTION" +:+ nl; rule +:+ nl;
              "Total Files: " +:+ str_nat (reported_total_files files_data) +:+ nl;
              "Total Lines: " +:+ str_nat (reported_total_lines files_data) +:+ nl +:+ nl;
              "File Listing:" +:+ nl ]
            ++ (listing_line <$> enumerate1 files_data)
            ++ [ nl +:+ nl ]
            ++ mjoin (file_section <$> enumerate1 files_data))
  end.

End ExtractDb.

(** ** code_analysis/extract_auth.py *)

Module ExtractAuth.

(** [glob.glob(os.path.join(root_dir, pattern))] followed by
    [os.path.relpath(_, root_dir)], for a pattern of the shape
    [dir/*suffix] with a literal [dir] and [suffix]: the only shape this
    script uses.  Patterns of another shape are outside the model and
    match nothing. *)
Definition glob_relative (root : node) (pattern : string) : list string :=
  let parts := path_parts pattern in
  match last parts with
  | Some (String "*" suffix) =>
      let dir_parts := removelast parts in
      match resolve_path root dir_parts with
      | Some (Dir _ true children) =>
          (λ c, str_join "/" (dir_parts ++ [name c]))
            <$> filter (λ c, ¬ ishidden (name c) ∧ endswith (name c) suffix) children
      | _ => []
      end
  | _ => []
  end.

(** The loop that collects [additional_files]. *)
Definition additional_files (root : node) (file_paths additional_patterns : list string)
    : list string :=
  mjoin ((λ pattern, filter (λ rel_path, rel_path ∉ file_paths) (glob_relative root pattern))
           <$> additional_patterns).

(** [list(set(l))] followed by [sort()]: the set decides which paths
    there are, the sort decides their order. *)
Definition sorted_set (l : list string) : list string :=
  stable_sort String.leb (elements (list_to_set l : gset string)).

Definition rule : string := str_repeat "=" 80.

(** The output file as the list of writes so far, the two lists the loop
    fills, and the paths on which [open] was called. *)
Record state := State {
  outf : list string;
  found_files : list string;
  not_found_files : list string;
  opened : list string
}.

Definition file_header (file_path : string) : list string :=
  [ nl +:+ nl +:+ rule +:+ nl;
    "FILE: " +:+ file_path +:+ nl;
    rule +:+ nl +:+ nl ].

Definition error_marker (e : exn) : string :=
  "ERROR READING FILE: " +:+ str_exn e +:+ nl.

(** The body of the loop over [all_files]. *)
Definition process_file (root_dir : string) (root : node) (st : state)
    (file_path : string) : state :=
  let full_path := path_join root_dir file_path in
  match resolve_path root (path_parts file_path) with
  | Some file =>
      let out := outf st ++ file_header file_path in
      match read_text full_path file with
      | inr content =>
          State (out ++ [content]) (found_files st ++ [file_path])
            (not_found_files st) (opened st ++ [file_path])
      | inl e =>
          State (out ++ [error_marker e]) (found_files st)
            (not_found_files st ++ [file_path]) (opened st ++ [file_path])
      end
  | None =>
      State (outf st) (found_files st) (not_found_files st ++ [file_path]) (opened st)
  end.

Definition preamble (root_dir now : string) : list string :=
  [ "# AUTH CODE EXTRACT" +:+ nl;
    "# This file contains the combined code from all auth-related files in the project"
      +:+ nl +:+ nl;
    "# Generated from: " +:+ root_dir +:+ nl;
    "# Date: " +:+ now +:+ nl +:+ nl ].

Definition summary (all_files found_files not_found_files : list string) : list string :=
  [ nl +:+ nl +:+ rule +:+ nl;
    "SUMMARY" +:+ nl;
    rule +:+ nl +:+ nl;
    "Total files processed: " +:+ str_nat (length all_files) +:+ nl;
    "Files found and extracted: " +:+ str_nat (length found_files) +:+ nl;
    "Files not found: " +:+ str_nat (length not_found_files) +:+ nl ].

Definition missing_list (not_found_files : list string) : list string :=
  match not_found_files with
  | [] => []
  | _ => (nl +:+ "Missing files:" +:+ nl)
           :: ((λ file_path, "- " +:+ file_path +:+ nl) <$> not_found_files)
  end.

Definition all_files (root : node) (file_paths additional_patterns : list string)
    : list string :=
  sorted_set (file_paths ++ additional_files root file_paths additional_patterns).

(** The state after the loop over [all_files]. *)
Definition run_loop (root_dir : string) (root : node) (now : string)
    (file_paths additional_patterns : list string) : state :=
  foldl (process_file root_dir root) (State (preamble root_dir now) [] [] [])
    (all_files root file_paths additional_patterns).

(** [extract_files_to_txt()], with what the script fixes or reads from its
    surroundings as arguments: the project root [root_dir] and the tree
    [root] it names, the formatted time [now], the list [file_paths] and
    the [additional_patterns].  The final state holds the whole output. *)
Definition extract_files_with (root_dir : string) (root : node) (now : string)
    (file_paths additional_patterns : list string) : state :=
  let st := run_loop root_dir root now file_paths additional_patterns in
  State
    (outf st
       ++ summary (all_files root file_paths additional_patterns)
            (found_files st) (not_found_files st)
       ++ missing_list (not_found_files st))
    (found_files st) (not_found_files st) (opened st).

Definition file_paths : list string :=
  [ "src/server/database/PostgreSQLIndexingStrategy.ts";
    "src/server/database/PostgreSQLConfig.ts";
    "src/server/database/seeds/02_users_seed.sql";
    "src/server/database/seeds/03_auth_roles_seed.sql";
    "src/server/database/models/auth/index.ts";
    "src/server/database/models/auth/PasswordResetToken.ts";
    "src/server/database/models/auth/Permission.ts";
    "src/server/database/models/auth/Role.ts";
    "src/server/database/models/auth/RolePermission.ts";
    "src/server/database/models/auth/Token.ts";
    "src/server/database/models/auth/User.ts";
    "src/server/database/models/auth/UserConnection.ts";
    "src/server/database/models/auth/UserPreferences.ts";
    "src/server/database/models/auth/UserProfile.ts";
    "src/server/database/models/auth/UserRole.ts";
    "src/server/database/repositories/auth/index.ts";
    "src/server/database/repositories/auth/PasswordResetTokenRepository.ts";
    "src/server/database/repositories/auth/PermissionRepository.ts";
    "src/server/database/repositories/auth/RolePermissionRepository.ts";
    "src/server/database/repositories/auth/RoleRepository.ts";
    "src/server/database/repositories/auth/TokenRepository.ts";
    "src/server/database/repositories/auth/UserConnectionRepository.ts";
    "src/server/database/repositories/auth/UserPreferencesRepository.ts";
    "src/server/repositories/auth/UserProfileRepository.ts";
    "src/server/database/repositories/auth/UserRepository.ts";
    "src/server/database/repositories/auth/UserRoleRepository.ts";
    "src/server/services/core/auth/AuthService.ts";
    "src/server/services/core/auth/EmailVerificationService.ts";
    "src/server/services/core/auth/index.ts";
    "src/server/services/core/auth/MFAService.ts";
    "src/server/services/core/auth/PasswordService.ts";
    "src/server/services/core/auth/RolePermissionService.ts";
    "src/server/services/core/auth/TokenService.ts";
    "src/server/services/core/auth/types.ts" ].

Definition additional_patterns : list string :=
  [ "src/server/database/models/auth/*.ts";
    "src/server/database/repositories/auth/*.ts";
    "src/server/repositories/auth/*.ts";
    "src/server/services/core/auth/*.ts";
    "src/server/database/*.ts" ].

Definition extract_files_to_txt (root_dir : string) (root : node) (now : string) : state :=
  extract_files_with root_dir root now file_paths additional_patterns.

(** *** Views of the loop, used to state properties *)

(** The entry that [root_dir / file_path] names. *)
Definition lookup_file (root : node) (file_path : string) : option node :=
  resolve_path root (path_parts file_path).



(** The writes of one turn of the loop: nothing for a path that does not
    exist; otherwise the header and then the text or the error marker. *)
Definition file_section (root_dir : string) (root : node) (file_path : string)
    : list string :=
  match lookup_file root file_path with
  | Some file =>
      file_header file_path ++
      [ match read_text (path_join root_dir file_path) file with
        | inr content => content
        | inl e => error_marker e
        end ]
  | None => []
  end.


End ExtractAuth.

(** ** Concrete trees *)

Module Examples.

(** The scenario of the specification: [a/x.ts] with two lines,
    [a/excluded/y.ts] with three, [a/z.md] with one. *)
Definition scenario : node :=
  Dir "base" true
    [ Dir "a" true
        [ File "x.ts" (Text ("one" +:+ nl +:+ "two" +:+ nl));
          Dir "excluded" true
            [ File "y.ts" (Text ("1" +:+ nl +:+ "2" +:+ nl +:+ "3" +:+ nl)) ];
          File "z.md" (Text ("doc" +:+ nl)) ] ].

Definition ts_only : gset string := {[ ".ts" ]}.
Definition excluded_only : gset string := {[ "excluded" ]}.

Definition scenario_info : ExtractCode.code_info :=
  ExtractCode.CodeInfo
    (ExtractCode.section (["x.ts"], ["one" +:+ nl; "two" +:+ nl]))
    1 2
    ["├── x.ts"; "└── z.md"].

(** A directory that the operating system lists as [b.ts], [a.ts]. *)
Definition listed_b_a : node :=
  Dir "base" true
    [ Dir "client" true
        [ File "b.ts" (Text ("b" +:+ nl)); File "a.ts" (Text ("a" +:+ nl)) ] ].




(** A directory with one file that cannot be decoded and one that can. *)
Definition bad_and_good : node :=
  Dir "base" true
    [ Dir "client" true
        [ File "bad.ts" (Undecodable "" "invalid start byte");
          File "x.ts" (Text ("one" +:+ nl +:+ "two" +:+ nl)) ] ].

(** A directory whose last entry in sorted order is an excluded one. *)
Definition last_excluded : node :=
  Dir "client" true [ Dir "a" true []; Dir "node_modules" true [] ].

(** A directory with a subdirectory that cannot be listed. *)
Definition locked_child : node :=
  Dir "base" true
    [ Dir "client" true
        [ Dir "locked" false [ File "k.ts" (Text ("k" +:+ nl)) ];
          File "z.ts" (Text ("z" +:+ nl)) ] ].

(** The manifest scenario of the specification: [m.ts] exists, [n.ts] does
    not. *)
Definition manifest_root : node :=
  Dir "root" true [ File "m.ts" (Text ("m" +:+ nl)) ].

(** The scenario with other things inside the excluded directory. *)
Definition scenario_other : node :=
  Dir "base" true
    [ Dir "a" true
        [ File "x.ts" (Text ("one" +:+ nl +:+ "two" +:+ nl));
          Dir "excluded" false
            [ File "secret.ts" (Text ("s" +:+ nl));
              Dir "deep" true [ File "w.ts" (Unopenable "denied") ] ];
          File "z.md" (Text ("doc" +:+ nl)) ] ].

(** A directory with a dependency folder next to its own source. *)
Definition with_node_modules : node :=
  Dir "base" true
    [ Dir "client" true
        [ Dir "node_modules" true
            [ Dir "pkg" true [ File "index.ts" (Text ("dep" +:+ nl)) ] ];
          File "app.ts" (Text ("app" +:+ nl)) ] ].

End Examples.

(** ** Further views of the file system *)

Module Views.

(** The tree without the directories whose name is excluded, at every level. *)
Fixpoint strip_excluded (exclude_dirs : gset string) (n : node) : node :=
  match n with
  | File _ _ => n
  | Dir nm readable children =>
      Dir nm readable
        (omap (λ c, if bool_decide (is_dir c ∧ name c ∈ exclude_dirs) then None
                    else Some (strip_excluded exclude_dirs c))
           children)
  end.

(** What [strip_excluded] keeps of the entries of a directory. *)
Definition kept_entries (exclude_dirs : gset string) (children : list node) : list node :=
  omap (λ c, if bool_decide (is_dir c ∧ name c ∈ exclude_dirs) then None
             else Some (strip_excluded exclude_dirs c))
    children.

(** The part of a step of the walk that the loop over the files reads. *)
Definition step_files (step : list string * list string * list node)
    : list string * list node :=
  (step.1.1, step.2).


(** A name as a directory entry can have it: not empty, not [.], and
    without a slash. *)
Definition valid_name (nm : string) : bool :=
  negb (String.eqb nm "") && negb (String.eqb nm ".") && negb (has_char "/" nm).

(** All the entries below [n] have such names. *)
Fixpoint valid_names (n : node) : bool :=
  match n with
  | File _ _ => true
  | Dir _ _ children => forallb (λ c, valid_name (name c) && valid_names c) children
  end.


End Views.

(** * Properties *)

(** Induction on the tree, with the hypothesis for every child. *)
Lemma node_tree_ind (P : node → Prop) :
  (∀ nm data, P (File nm data)) →
  (∀ nm readable children, Forall P children → P (Dir nm readable children)) →
  ∀ n, P n.
Proof.
  intros Hfile Hdir.
  fix IH 1. intros [nm data|nm readable children].
  - apply Hfile.
  - apply Hdir. induction children as [|c children IHc]; constructor.
    + apply IH.
    + apply IHc.
Qed.

(** ** Strings *)

Lemma str_app_cons (x : ascii) (a b : string) : String x a +:+ b = String x (a +:+ b).
Proof. reflexivity. Qed.

Lemma str_app_assoc (a b c : string) : (a +:+ b) +:+ c = a +:+ (b +:+ c).
Proof. induction a as [|x a IH]; [done|]. by rewrite !str_app_cons, IH. Qed.

Lemma str_app_nil_r (a : string) : a +:+ "" = a.
Proof. induction a as [|x a IH]; [done|]. by rewrite str_app_cons, IH. Qed.

(** ** Sorting *)

Section stable_sort_facts.
Context {A : Type} (leb : A → A → bool).

Lemma insert_sorted_Permutation x l : insert_sorted leb x l ≡ₚ x :: l.
Proof.
  induction l as [|y l IH]; simpl; [done|].
  destruct (leb x y); [done|]. by rewrite IH, Permutation_swap.
Qed.

Lemma stable_sort_Permutation l : stable_sort leb l ≡ₚ l.
Proof.
  induction l as [|x l IH]; simpl; [done|].
  by rewrite insert_sorted_Permutation, IH.
Qed.

Lemma stable_sort_length l : length (stable_sort leb l) = length l.
Proof. by rewrite stable_sort_Permutation. Qed.

Lemma elem_of_stable_sort x l : x ∈ stable_sort leb l ↔ x ∈ l.
Proof. by rewrite stable_sort_Permutation. Qed.

Lemma Forall_stable_sort (P : A → Prop) l : Forall P l → Forall P (stable_sort leb l).
Proof. by rewrite stable_sort_Permutation. Qed.

Hypothesis leb_total : ∀ x y, leb x y = true ∨ leb y x = true.

Lemma insert_sorted_Sorted x l :
  Sorted (λ a b, leb a b = true) l → Sorted (λ a b, leb a b = true) (insert_sorted leb x l).
Proof.
  induction 1 as [|y l Hl IH Hy]; simpl.
  - by repeat constructor.
  - destruct (leb x y) eqn:Hxy.
    + by repeat constructor.
    + constructor; [done|].
      destruct (leb_total x y) as [?|Hyx]; [congruence|].
      destruct Hy as [|z l Hyz]; simpl; [by constructor|].
      destruct (leb x z); by constructor.
Qed.

Lemma stable_sort_Sorted l : Sorted (λ a b, leb a b = true) (stable_sort leb l).
Proof.
  induction l as [|x l IH]; simpl; [constructor|]. by apply insert_sorted_Sorted.
Qed.
End stable_sort_facts.

(** Sorting commutes with a map that preserves the comparison. *)
Lemma insert_sorted_fmap {A B} (lebA : A → A → bool) (lebB : B → B → bool) (f : A → B) x l :
  (∀ x y, lebB (f x) (f y) = lebA x y) →
  insert_sorted lebB (f x) (f <$> l) = f <$> insert_sorted lebA x l.
Proof.
  intros Hf. induction l as [|y l IH]; [done|].
  cbn [insert_sorted fmap list_fmap]. rewrite Hf.
  destruct (lebA x y); [done|]. cbn [fmap list_fmap]. f_equal. apply IH.
Qed.

Lemma stable_sort_fmap {A B} (lebA : A → A → bool) (lebB : B → B → bool) (f : A → B) l :
  (∀ x y, lebB (f x) (f y) = lebA x y) →
  stable_sort lebB (f <$> l) = f <$> stable_sort lebA l.
Proof.
  intros Hf. induction l as [|x l IH]; [done|].
  change (insert_sorted lebB (f x) (stable_sort lebB (f <$> l))
          = f <$> insert_sorted lebA x (stable_sort lebA l)).
  rewrite IH. by apply insert_sorted_fmap.
Qed.

Lemma Sorted_mono {A} (R R' : relation A) l :
  (∀ x y, R x y → R' x y) → Sorted R l → Sorted R' l.
Proof.
  intros HR. induction 1 as [|x l Hl IH Hx]; constructor; [done|].
  destruct Hx; constructor; auto.
Qed.

(** Sorting strings: the result is the one sorted arrangement of the input. *)
Lemma string_sort_Sorted (l : list string) : Sorted String.le (stable_sort String.leb l).
Proof.
  apply (Sorted_mono (λ a b, String.leb a b = true)).
  - intros x y Hxy. unfold String.le. by rewrite Hxy.
  - apply stable_sort_Sorted. intros x y.
    destruct (total String.le x y) as [H|H]; unfold String.le in H;
      destruct (String.leb _ _); auto.
Qed.

Lemma string_sort_Permutation_eq (l1 l2 : list string) :
  l1 ≡ₚ l2 → stable_sort String.leb l1 = stable_sort String.leb l2.
Proof.
  intros Hl. apply (Sorted_unique String.le); [apply string_sort_Sorted..|].
  by rewrite !stable_sort_Permutation.
Qed.

(** ** extract_code.py: the tree *)

Section extract_code_tree.
Import ExtractCode.
Context (exclude_dirs : gset string).

Lemma generate_directory_tree_Dir nm children prefix :
  generate_directory_tree (Dir nm true children) prefix exclude_dirs =
  tree_loop exclude_dirs prefix (length children) 0
    ((λ c, (c, λ p, generate_directory_tree c p exclude_dirs))
       <$> stable_sort node_leb children).
Proof.
  cbn [generate_directory_tree].
  rewrite (stable_sort_fmap node_leb) by done.
  by rewrite length_fmap, stable_sort_length.
Qed.

Lemma tree_entries_Dir nm children rel prefix :
  tree_entries (Dir nm true children) rel prefix exclude_dirs =
  entries_loop exclude_dirs rel prefix (length children) 0
    ((λ c, (c, λ r p, tree_entries c r p exclude_dirs))
       <$> stable_sort node_leb children).
Proof.
  cbn [tree_entries].
  rewrite (stable_sort_fmap node_leb) by done.
  by rewrite length_fmap, stable_sort_length.
Qed.

(** The lines of the instrumented loop are those of the loop. *)
Lemma entries_loop_lines rel prefix n i (l : list node) F G :
  Forall (λ c, ∀ r p, (G c r p).*2 = F c p) l →
  (entries_loop exclude_dirs rel prefix n i ((λ c, (c, G c)) <$> l)).*2 =
  tree_loop exclude_dirs prefix n i ((λ c, (c, F c)) <$> l).
Proof.
  intros Hl. revert i. induction Hl as [|c l Hc Hl IH]; intros i; [done|].
  cbn [fmap list_fmap entries_loop tree_loop]. case_bool_decide; [apply IH|].
  cbv zeta. cbn [fmap list_fmap fst snd]. f_equal.
  rewrite fmap_app. f_equal; [|apply IH].
  destruct (is_dir c); [apply Hc|done].
Qed.

Lemma tree_entries_lines directory rel prefix :
  (tree_entries directory rel prefix exclude_dirs).*2 =
  generate_directory_tree directory prefix exclude_dirs.
Proof.
  revert rel prefix. induction directory as [nm data|nm readable children IH]
    using node_tree_ind; intros rel prefix; [done|].
  destruct readable; [|done].
  rewrite generate_directory_tree_Dir, tree_entries_Dir.
  apply (entries_loop_lines rel prefix _ 0 _
           (λ c p, generate_directory_tree c p exclude_dirs)
           (λ c r p, tree_entries c r p exclude_dirs)).
  by apply Forall_stable_sort.
Qed.

Lemma entry_ok_below rel nm e :
  nm ∉ exclude_dirs → entry_ok exclude_dirs (rel ++ [nm]) e → entry_ok exclude_dirs rel e.
Proof.
  intros Hnm (parts & nm' & indent & He & Hparts & Hline).
  exists (nm :: parts), nm', indent. split_and!; [|by constructor|done].
  by rewrite He, <-(assoc_L (++)).
Qed.

Lemma entries_loop_ok rel prefix n i (l : list node) G :
  Forall (λ c, ∀ r p, Forall (entry_ok exclude_dirs r) (G c r p)) l →
  Forall (entry_ok exclude_dirs rel) (entries_loop exclude_dirs rel prefix n i ((λ c, (c, G c)) <$> l)).
Proof.
  intros Hl. revert i. induction Hl as [|c l Hc Hl IH]; intros i; [constructor|].
  cbn [fmap list_fmap entries_loop]. case_bool_decide as Hex; [apply IH|].
  cbv zeta. constructor.
  - exists [], (name c), (prefix +:+ (if i =? n - 1 then "└── " else "├── ")).
    split_and!; [done|by repeat constructor|].
    by rewrite str_app_assoc.
  - apply Forall_app. split; [|apply IH].
    destruct (is_dir c); [|constructor].
    eapply Forall_impl; [apply Hc|]. intros e. by apply entry_ok_below.
Qed.

Lemma tree_entries_ok directory rel prefix :
  Forall (entry_ok exclude_dirs rel) (tree_entries directory rel prefix exclude_dirs).
Proof.
  revert rel prefix. induction directory as [nm data|nm readable children IH]
    using node_tree_ind; intros rel prefix; [constructor|].
  destruct readable; [|constructor].
  rewrite tree_entries_Dir.
  apply (entries_loop_ok rel prefix _ 0 _ (λ c r p, tree_entries c r p exclude_dirs)).
  by apply Forall_stable_sort.
Qed.
End extract_code_tree.

(** ** extract_code.py: the walk *)

Lemma sum_nat_app (x y : list nat) : sum_nat (x ++ y) = sum_nat x + sum_nat y.
Proof.
  induction x as [|n x IH]; [done|].
  change (n + sum_nat (x ++ y) = n + sum_nat x + sum_nat y). lia.
Qed.

Lemma assoc_fmap {B} (f : node → B) (l : list node) (nm : string) :
  assoc nm ((λ c, (name c, f c)) <$> l) = f <$> resolve l nm.
Proof.
  induction l as [|c l IH]; [done|].
  cbn [fmap list_fmap assoc resolve]. by destruct (String.eqb (name c) nm).
Qed.

Lemma resolve_Some (l : list node) (nm : string) (c : node) :
  resolve l nm = Some c → c ∈ l ∧ name c = nm.
Proof.
  induction l as [|c' l IH]; [done|]. cbn [resolve].
  destruct (String.eqb_spec (name c') nm) as [Heq|Hne].
  - intros [= ->]. split; [left|done].
  - intros [??]%IH. split; [by right|done].
Qed.

Section extract_code_walk.
Import ExtractCode.
Context (code_extensions exclude_dirs : gset string).


Lemma add_files_nil st : add_files st [] = st.
Proof.
  destruct st. unfold add_files. cbn. f_equal; [apply app_nil_r|lia..].
Qed.

Lemma add_files_app st a b : add_files (add_files st a) b = add_files st (a ++ b).
Proof.
  unfold add_files. cbn [code_content total_files total_lines].
  rewrite !fmap_app, length_app, sum_nat_app, (assoc_L (++)). f_equal; lia.
Qed.

(** One file through the loop body. *)
Lemma process_file_spec root st file :
  process_file code_extensions root st file =
  add_files st
    (omap read_lines
       ((λ file, (root ++ [name file], file))
          <$> filter (λ file, lower (splitext_ext (name file)) ∈ code_extensions) [file])).
Proof.
  unfold process_file. rewrite filter_cons, filter_nil.
  case_bool_decide as Hext.
  - rewrite decide_True by done. cbn [fmap list_fmap omap list_omap].
    unfold read_lines at 1. cbn [fst snd].
    destruct (open_readlines file) as [e|lines]; [by rewrite add_files_nil|].
    destruct st. unfold add_files. cbn. f_equal. lia.
  - rewrite decide_False by done. by rewrite add_files_nil.
Qed.

Lemma walk_step_spec st step :
  walk_step code_extensions st step = add_files st (included_files code_extensions [step]).
Proof.
  destruct step as [[root dirs] files]. unfold walk_step, included_files, matched_files.
  cbn [fst snd fmap list_fmap mjoin list_join]. rewrite app_nil_r.
  revert st. induction files as [|file files IH]; intros st.
  { by rewrite add_files_nil. }
  cbn [foldl]. rewrite IH, process_file_spec, add_files_app. f_equal.
  rewrite <-omap_app, <-fmap_app. do 2 f_equal.
  by rewrite <-filter_app.
Qed.

Lemma included_files_app w1 w2 :
  included_files code_extensions (w1 ++ w2) =
  included_files code_extensions w1 ++ included_files code_extensions w2.
Proof.
  unfold included_files, matched_files. by rewrite fmap_app, join_app, omap_app.
Qed.

Lemma foldl_walk_step st walk :
  foldl (walk_step code_extensions) st walk =
  add_files st (included_files code_extensions walk).
Proof.
  revert st. induction walk as [|step walk IH]; intros st.
  { by rewrite add_files_nil. }
  cbn [foldl]. rewrite IH, walk_step_spec, add_files_app.
  by rewrite <-included_files_app.
Qed.

(** The state when the walk is over, in terms of the files that were
    matched and could be read. *)
Lemma walk_state_spec dir_path :
  let incl :=
    included_files code_extensions (os_walk (prune exclude_dirs) [] dir_path) in
  walk_state code_extensions exclude_dirs dir_path =
  State (section <$> incl) (length incl) (sum_nat ((λ f, length f.2) <$> incl)).
Proof. intros incl. unfold walk_state. by rewrite foldl_walk_step. Qed.

(** Every matched file sits in a directory the walk has entered. *)
Lemma matched_files_roots walk m :
  m ∈ matched_files code_extensions walk →
  ∃ step, step ∈ walk ∧ m.2 ∈ step.2 ∧ m.1 = step.1.1 ++ [name m.2] ∧
          lower (splitext_ext (name m.2)) ∈ code_extensions.
Proof.
  unfold matched_files. intros (ms & Hm & Hms)%list_elem_of_join.
  apply list_elem_of_fmap in Hms as (step & -> & Hstep).
  apply list_elem_of_fmap in Hm as (file & -> & Hfile).
  apply list_elem_of_filter in Hfile as [Hext Hfile]. by exists step.
Qed.

Lemma included_files_matched walk f :
  f ∈ included_files code_extensions walk →
  ∃ m, m ∈ matched_files code_extensions walk ∧ f.1 = m.1 ∧
       open_readlines m.2 = inr f.2.
Proof.
  unfold included_files. intros (m & Hm & Hf)%list_elem_of_omap.
  exists m. split; [done|]. unfold read_lines in Hf.
  destruct (open_readlines m.2); [done|]. by injection Hf as <-.
Qed.
End extract_code_walk.

(** ** extract_db_code.py: what is kept *)

Lemma prefix_app (p s : string) : String.prefix p (p +:+ s) = true.
Proof.
  induction p as [|c p IH]; [by destruct s|].
  rewrite str_app_cons. cbn [String.prefix]. by destruct (ascii_dec c c).
Qed.

Lemma contains_prefix (p s : string) : String.prefix p s = true → contains p s = true.
Proof. intros Hp. destruct s; cbn [contains]; by rewrite Hp. Qed.

(** A path that has [pat] somewhere inside contains it. *)
Lemma contains_app (pat a b : string) : contains pat (a +:+ pat +:+ b) = true.
Proof.
  induction a as [|c a IH].
  - exact (contains_prefix pat (pat +:+ b) (prefix_app pat b)).
  - rewrite str_app_cons. cbn [contains]. rewrite IH. apply orb_true_r.
Qed.

Section extract_db_kept.
Import ExtractDb.


Lemma kept_files_spec patterns directory dir file_extensions file :
  file ∈ kept_files patterns directory dir file_extensions →
  is_excluded_with patterns file.1 = false ∧
  ∃ ext, ext ∈ file_extensions ∧ file ∈ glob_recursive directory dir (dotted ext).
Proof.
  unfold kept_files. intros (files & Hfile & Hfiles)%list_elem_of_join.
  apply list_elem_of_fmap in Hfiles as (ext & -> & Hext).
  apply list_elem_of_filter in Hfile as [Hex Hfile]. split; [|by exists ext].
  by destruct (is_excluded_with patterns file.1).
Qed.

End extract_db_kept.

(** What [extract_code_for_directory] returns, in terms of the files that
    were matched and could be read. *)
Lemma extract_code_with_spec code_extensions exclude_dirs base_dir target_dir :
  ExtractCode.extract_code_with code_extensions exclude_dirs base_dir target_dir =
  match lookup_child base_dir target_dir with
  | None => None
  | Some dir_path =>
      let incl :=
        ExtractCode.included_files code_extensions
          (ExtractCode.os_walk (ExtractCode.prune exclude_dirs) [] dir_path) in
      match incl with
      | [] => None
      | _ =>
          Some (ExtractCode.CodeInfo
                  (str_concat (ExtractCode.section <$> incl))
                  (length incl)
                  (sum_nat ((λ f, length f.2) <$> incl))
                  (ExtractCode.generate_directory_tree dir_path "" exclude_dirs))
      end
  end.
Proof.
  unfold ExtractCode.extract_code_with.
  destruct (lookup_child base_dir target_dir) as [dir_path|]; [|done].
  rewrite walk_state_spec. cbn [ExtractCode.total_files ExtractCode.code_content
    ExtractCode.total_lines]. cbv zeta.
  by destruct (ExtractCode.included_files _ _).
Qed.

Lemma extract_code_with_Some code_extensions exclude_dirs base_dir target_dir info :
  ExtractCode.extract_code_with code_extensions exclude_dirs base_dir target_dir = Some info →
  ∃ dir_path,
    lookup_child base_dir target_dir = Some dir_path ∧
    let incl :=
      ExtractCode.included_files code_extensions
        (ExtractCode.os_walk (ExtractCode.prune exclude_dirs) [] dir_path) in
    incl ≠ [] ∧
    info = ExtractCode.CodeInfo
             (str_concat (ExtractCode.section <$> incl))
             (length incl)
             (sum_nat ((λ f, length f.2) <$> incl))
             (ExtractCode.generate_directory_tree dir_path "" exclude_dirs).
Proof.
  rewrite extract_code_with_spec.
  destruct (lookup_child base_dir target_dir) as [dir_path|]; [|done].
  cbv zeta. intros Hinfo. exists dir_path. split; [done|].
  destruct (ExtractCode.included_files _ _); [done|]. split; [done|]. congruence.
Qed.

(** ** C1 *)



(** ** extract_server.py: the order of the files *)

Section extract_server_files.
Import ExtractServer.

Lemma all_files_paths target_dir target file_extensions :
  (all_files target_dir target file_extensions).*1 =
  stable_sort String.leb (mjoin (glob_recursive target_dir target <$> file_extensions)).*1.
Proof. unfold all_files. symmetry. by apply stable_sort_fmap. Qed.

Lemma all_files_Sorted target_dir target file_extensions :
  Sorted String.le (all_files target_dir target file_extensions).*1.
Proof. rewrite all_files_paths. apply string_sort_Sorted. Qed.

Lemma all_files_Permutation target_dir target file_extensions :
  all_files target_dir target file_extensions ≡ₚ
  mjoin (glob_recursive target_dir target <$> file_extensions).
Proof. apply stable_sort_Permutation. Qed.

(** What a run that writes the output file has written. *)
Lemma extract_code_writes base_dir base target_subfolder file_extensions writes :
  extract_code base_dir base target_subfolder file_extensions = inr (Some writes) →
  ∃ target dir_tree,
    lookup_child base target_subfolder = Some target ∧ is_dir target = true ∧
    generate_directory_tree base_dir (path_join base_dir target_subfolder) target "" true
      default_exclude_patterns = inr dir_tree ∧
    let files := all_files (path_join base_dir target_subfolder) target file_extensions in
    writes =
      summary target_subfolder files (sum_nat (count_lines_of_code <$> files))
        file_extensions dir_tree
      ++ mjoin (section base_dir <$> files).
Proof.
  unfold extract_code. destruct (lookup_child base target_subfolder) as [target|]; [|done].
  destruct (is_dir target) eqn:Hdir; [|done]. cbn [negb].
  destruct (generate_directory_tree _ _ _ _ _ _) as [e|dir_tree] eqn:Htree; [done|].
  cbn. intros [= <-]. by exists target, dir_tree.
Qed.
End extract_server_files.

(** ** C2 *)

(** C2, as the code has it.  In [extract_code] of [extract_server.py], a run
    that writes a report processes the files sorted by full path: the list of
    paths is sorted, it is a rearrangement of what the glob found and the same
    for every order in which the glob may find them, and the report is the
    summary followed by one section per file in that order.  In
    [extract_code_for_directory] the files are not sorted: the report holds
    one section per file that was matched and read, in the order in which
    [os.walk] yields them (directory by directory from the top, the files of
    a directory as the operating system lists them).  Both reports are
    functions of the tree as it is listed. *)
Theorem C2_processing_order :
  (∀ base_dir base target_subfolder file_extensions writes,
     ExtractServer.extract_code base_dir base target_subfolder file_extensions
       = inr (Some writes) →
     ∃ target dir_tree,
       lookup_child base target_subfolder = Some target ∧
       let files :=
         ExtractServer.all_files (path_join base_dir target_subfolder) target
           file_extensions in
       Sorted String.le files.*1 ∧
       files ≡ₚ mjoin (glob_recursive (path_join base_dir target_subfolder) target
                          <$> file_extensions) ∧
       (∀ found,
          found ≡ₚ (mjoin (glob_recursive (path_join base_dir target_subfolder) target
                             <$> file_extensions)).*1 →
          stable_sort String.leb found = files.*1) ∧
       writes =
         ExtractServer.summary target_subfolder files
           (sum_nat (ExtractServer.count_lines_of_code <$> files)) file_extensions dir_tree
         ++ mjoin (ExtractServer.section base_dir <$> files)) ∧
  (∀ code_extensions exclude_dirs base_dir target_dir info,
     ExtractCode.extract_code_with code_extensions exclude_dirs base_dir target_dir
       = Some info →
     ∃ dir_path,
       lookup_child base_dir target_dir = Some dir_path ∧
       ExtractCode.content info =
         str_concat
           (ExtractCode.section
              <$> ExtractCode.included_files code_extensions
                    (ExtractCode.os_walk (ExtractCode.prune exclude_dirs) [] dir_path))).
Proof.
  split.
  - intros base_dir base target_subfolder file_extensions writes
      (target & dir_tree & Htarget & _ & _ & Hwrites)%extract_code_writes.
    exists target, dir_tree. split; [done|]. intros files. split_and!.
    + apply all_files_Sorted.
    + apply all_files_Permutation.
    + intros found Hfound. unfold files. rewrite all_files_paths.
      by apply string_sort_Permutation_eq.
    + done.
  - intros code_extensions exclude_dirs base_dir target_dir info Hinfo.
    apply extract_code_with_Some in Hinfo as (dir_path & Hdir & _ & ->).
    by exists dir_path.
Qed.

(** The claim as stated fails for [extract_code_for_directory]: with a
    directory listed as [b.ts], [a.ts], the sections come in that order. *)
Lemma C2_files_not_sorted :
  ∃ info dir_path,
    ExtractCode.extract_code_for_directory Examples.listed_b_a "client" = Some info ∧
    lookup_child Examples.listed_b_a "client" = Some dir_path ∧
    ExtractCode.content info =
      ExtractCode.section (["b.ts"], ["b" +:+ nl]) +:+
      ExtractCode.section (["a.ts"], ["a" +:+ nl]) ∧
    ExtractCode.processed_paths ExtractCode.code_extensions ExtractCode.exclude_dirs dir_path
      = ["b.ts"; "a.ts"] ∧
    ¬ Sorted String.le
        (ExtractCode.processed_paths ExtractCode.code_extensions ExtractCode.exclude_dirs
           dir_path).
Proof.
  assert (ExtractCode.processed_paths ExtractCode.code_extensions ExtractCode.exclude_dirs
            (Dir "client" true
               [File "b.ts" (Text ("b" +:+ nl)); File "a.ts" (Text ("a" +:+ nl))])
          = ["b.ts"; "a.ts"]) as Hpaths by (vm_compute; reflexivity).
  eexists _, (Dir "client" true
                [File "b.ts" (Text ("b" +:+ nl)); File "a.ts" (Text ("a" +:+ nl))]).
  split_and!; [vm_compute; reflexivity..|exact Hpaths|rewrite Hpaths].
  intros Hsorted. inversion Hsorted as [|x l _ Hhd]; subst.
  inversion Hhd as [|y l' Hle]; subst. vm_compute in Hle. done.
Qed.

Lemma C2_processing_order_witness :
  ∃ writes info,
    ExtractServer.extract_code "/srv" Examples.listed_b_a "client" [".ts"]
      = inr (Some writes) ∧
    ExtractCode.extract_code_for_directory Examples.listed_b_a "client" = Some info ∧
    (∃ target,
       lookup_child Examples.listed_b_a "client" = Some target ∧
       Sorted String.le (ExtractServer.all_files "/srv/client" target [".ts"]).*1) ∧
    (∃ dir_path,
       lookup_child Examples.listed_b_a "client" = Some dir_path ∧
       ExtractCode.content info =
         str_concat
           (ExtractCode.section
              <$> ExtractCode.included_files ExtractCode.code_extensions
                    (ExtractCode.os_walk (ExtractCode.prune ExtractCode.exclude_dirs) []
                       dir_path))).
Proof.
  destruct (ExtractServer.extract_code "/srv" Examples.listed_b_a "client" [".ts"])
    as [e|[writes|]] eqn:Hwrites; [vm_compute in Hwrites; discriminate| |
      vm_compute in Hwrites; discriminate].
  destruct (ExtractCode.extract_code_for_directory Examples.listed_b_a "client")
    as [info|] eqn:Hinfo; [|vm_compute in Hinfo; discriminate].
  exists writes, info. split; [reflexivity|]. split; [reflexivity|].
  destruct C2_processing_order as [Hserver Hcode]. split.
  - destruct (Hserver _ _ _ _ _ Hwrites) as (target & dir_tree & Htarget & Hsorted & _).
    exists target. split; [exact Htarget|exact Hsorted].
  - exact (Hcode _ _ _ _ _ Hinfo).
Defined.

(** ** extract_auth.py: the loop over the requested paths *)

Section extract_auth_loop.
Import ExtractAuth.
Context (root_dir : string) (root : node).







End extract_auth_loop.

(** ** C3 *)


(** ** C4 *)

Section extract_auth_paths.
Import ExtractAuth.
Context (root_dir : string) (root : node).






End extract_auth_paths.




(** ** C10 *)


(** ** C6 *)




(** ** Counting lines *)



Lemma length_omap_filter {A B} (f : A → option B) (l : list A) :
  length (omap f l) = length (filter (λ x, is_Some (f x)) l).
Proof.
  induction l as [|x l IH]; [done|]. rewrite filter_cons. cbn [omap list_omap].
  destruct (f x) as [y|] eqn:Hy.
  - rewrite decide_True by (by eexists). cbn. by rewrite IH.
  - rewrite decide_False; [done|]. by intros [??].
Qed.

(** ** C5 *)

(** C5, as the code has it.
    - In [extract_code_for_directory] a matched file whose read fails is
      left out: it gets no section and no placeholder and is not counted.
      The file count is the number of matched files that could be read, and
      the content and the line total are made of exactly those files, in the
      order of the walk, so a failure neither stops the walk nor touches the
      sections of the other files.
    - In [extract_code] of [extract_server.py] every file of the sorted list
      gets its section.  For a file whose read fails the recorded line count
      is 0 and the body is a placeholder: a fixed string for a decoding
      failure, the text of the error for any other.  The file is counted: the
      summary prints the length of the list.
    - In [extract_files] of [extract_db_code.py] a file whose read fails is
      recorded with 0 lines and the text of the error as content; bytes that
      do not decode are dropped instead of failing. *)
Theorem C5_read_failures :
  (∀ code_extensions exclude_dirs base_dir target_dir info,
     ExtractCode.extract_code_with code_extensions exclude_dirs base_dir target_dir
       = Some info →
     ∃ dir_path,
       lookup_child base_dir target_dir = Some dir_path ∧
       let matched :=
         ExtractCode.matched_files code_extensions
           (ExtractCode.os_walk (ExtractCode.prune exclude_dirs) [] dir_path) in
       ExtractCode.info_total_files info =
         length (filter (λ m, is_Some (ExtractCode.read_lines m)) matched) ∧
       ExtractCode.content info =
         str_concat (ExtractCode.section <$> omap ExtractCode.read_lines matched) ∧
       ExtractCode.info_total_lines info =
         sum_nat ((λ f, length f.2) <$> omap ExtractCode.read_lines matched) ∧
       (∀ m e, ExtractCode.open_readlines m.2 = inl e → ExtractCode.read_lines m = None)) ∧
  (∀ base_dir base target_subfolder file_extensions writes,
     ExtractServer.extract_code base_dir base target_subfolder file_extensions
       = inr (Some writes) →
     ∃ target dir_tree,
       lookup_child base target_subfolder = Some target ∧
       let files :=
         ExtractServer.all_files (path_join base_dir target_subfolder) target
           file_extensions in
       writes =
         ExtractServer.summary target_subfolder files
           (sum_nat (ExtractServer.count_lines_of_code <$> files)) file_extensions dir_tree
         ++ mjoin (ExtractServer.section base_dir <$> files) ∧
       writes !! 1 = Some ("// Total files: " +:+ str_nat (length files) +:+ nl) ∧
       (∀ file e,
          file ∈ files → read_text file.1 file.2 = inl e →
          ExtractServer.count_lines_of_code file = 0 ∧
          ExtractServer.section base_dir file =
            [ ExtractServer.section_header base_dir file;
              match e with
              | UnicodeDecodeError _ => ExtractServer.decode_placeholder
              | OSError msg => "// [Error reading file: " +:+ msg +:+ "]" +:+ nl
              end ])) ∧
  (∀ patterns directory dir file_extensions file,
     file ∈ ExtractDb.kept_files patterns directory dir file_extensions →
     ExtractDb.record_of directory file
       ∈ ExtractDb.extract_files_with patterns directory (Some dir) file_extensions ∧
     (∀ e, read_text_ignore file.1 file.2 = inl e →
           ExtractDb.record_of directory file =
             ExtractDb.FileRecord (relpath file.1 directory) 0 ("ERROR: " +:+ str_exn e)) ∧
     (∀ nm lossy msg, file.2 = File nm (Undecodable lossy msg) →
           ExtractDb.record_of directory file =
             ExtractDb.FileRecord (relpath file.1 directory) (count_nl lossy + 1) lossy)).
Proof.
  split_and!.
  - intros code_extensions exclude_dirs base_dir target_dir info Hinfo.
    apply extract_code_with_Some in Hinfo as (dir_path & Hdir & _ & ->).
    exists dir_path. split; [done|]. intros matched.
    cbn [ExtractCode.info_total_files ExtractCode.content ExtractCode.info_total_lines].
    unfold ExtractCode.included_files. fold matched.
    split_and!; [apply length_omap_filter|done|done|].
    intros m e Hm. unfold ExtractCode.read_lines. by rewrite Hm.
  - intros base_dir base target_subfolder file_extensions writes
      (target & dir_tree & Htarget & _ & _ & Hwrites)%extract_code_writes.
    exists target, dir_tree. split; [done|]. intros files. split_and!.
    + done.
    + by rewrite Hwrites.
    + intros file e _ Hread.
      unfold ExtractServer.section, ExtractServer.section_body,
        ExtractServer.count_lines_of_code.
      rewrite Hread. by destruct e.
  - intros patterns directory dir file_extensions file Hfile. split_and!.
    + unfold ExtractDb.extract_files_with. rewrite elem_of_stable_sort.
      by apply list_elem_of_fmap_2.
    + intros e Hread. unfold ExtractDb.record_of. by rewrite Hread.
    + intros nm lossy msg Hnode. unfold ExtractDb.record_of. by rewrite Hnode.
Qed.

(** The claim as stated fails for [extract_code_for_directory]: of the two
    matched files only the readable one is counted, and the content is its
    section alone, with no placeholder for the other. *)
Lemma C5_unreadable_file_dropped :
  ∃ info dir_path,
    ExtractCode.extract_code_for_directory Examples.bad_and_good "client" = Some info ∧
    lookup_child Examples.bad_and_good "client" = Some dir_path ∧
    length (ExtractCode.matched_files ExtractCode.code_extensions
              (ExtractCode.os_walk (ExtractCode.prune ExtractCode.exclude_dirs) []
                 dir_path)) = 2 ∧
    ExtractCode.info_total_files info = 1 ∧
    ExtractCode.content info =
      ExtractCode.section (["x.ts"], ["one" +:+ nl; "two" +:+ nl]).
Proof. eexists _, _. split_and!; vm_compute; reflexivity. Qed.

Lemma C5_read_failures_witness :
  ∃ info,
    ExtractCode.extract_code_for_directory Examples.bad_and_good "client" = Some info ∧
    ∃ dir_path,
      lookup_child Examples.bad_and_good "client" = Some dir_path ∧
      ExtractCode.info_total_files info =
        length (filter (λ m, is_Some (ExtractCode.read_lines m))
                  (ExtractCode.matched_files ExtractCode.code_extensions
                     (ExtractCode.os_walk (ExtractCode.prune ExtractCode.exclude_dirs) []
                        dir_path))).
Proof.
  destruct (ExtractCode.extract_code_for_directory Examples.bad_and_good "client")
    as [info|] eqn:Hinfo; [|vm_compute in Hinfo; discriminate].
  exists info. split; [reflexivity|].
  destruct C5_read_failures as [Hcode _].
  destruct (Hcode _ _ _ _ _ Hinfo) as (dir_path & Hdir & Hfiles & _).
  exists dir_path. split; [exact Hdir|exact Hfiles].
Defined.

(** ** C7 *)






(** ** C8 *)

(** C8 at a failing input.  [generate_directory_tree] of [extract_code.py]
    sorts all the entries and decides "last" by the position in that whole
    list, excluded entries included.  In a directory that holds [a] and
    [node_modules], the entry [a] is the last one that remains, and it is
    rendered with the branch marker.  The variant of [extract_server.py]
    filters before it sorts and counts, and renders the same entry with the
    corner marker. *)
Theorem C8_last_remaining_sibling :
  ExtractCode.generate_directory_tree Examples.last_excluded "" ExtractCode.exclude_dirs
    = ["├── a"] ∧
  ExtractServer.generate_directory_tree "/srv" "/srv/client" Examples.last_excluded "" true
    ExtractServer.default_exclude_patterns
    = inr ("└── client" +:+ nl +:+ "    └── a" +:+ nl).
Proof. split; vm_compute; reflexivity. Qed.

(** ** C9 *)

(** C9 at a failing input.  With a subdirectory that cannot be listed,
    [generate_directory_tree] of [extract_server.py] raises the error of
    [os.listdir], and [extract_code] raises with it before anything is
    written.  The variant of [extract_code.py] shows the subdirectory
    without children and goes on with its sibling. *)
Theorem C9_unreadable_directory :
  ExtractServer.generate_directory_tree "/srv" "/srv/client"
    (Dir "client" true
       [ Dir "locked" false [ File "k.ts" (Text ("k" +:+ nl)) ];
         File "z.ts" (Text ("z" +:+ nl)) ])
    "" true ExtractServer.default_exclude_patterns
    = inl (permission_denied "/srv/client/locked") ∧
  ExtractServer.extract_code "/srv" Examples.locked_child "client"
    ExtractServer.default_file_extensions
    = inl (permission_denied "/srv/client/locked") ∧
  ExtractCode.generate_directory_tree
    (Dir "client" true
       [ Dir "locked" false [ File "k.ts" (Text ("k" +:+ nl)) ];
         File "z.ts" (Text ("z" +:+ nl)) ])
    "" ExtractCode.exclude_dirs
    = ["├── locked"; "└── z.ts"].
Proof. split_and!; vm_compute; reflexivity. Qed.

(** ** The scenarios of the specification *)

(** Directory mode: one file found, two lines, and neither [excluded] nor
    [y.ts] in the tree. *)
Example directory_scenario :
  ExtractCode.extract_code_with Examples.ts_only Examples.excluded_only
    Examples.scenario "a" = Some Examples.scenario_info.
Proof. vm_compute. reflexivity. Qed.

(** Manifest mode: [m.ts] is found, [n.ts] is not, and the list of missing
    files holds [n.ts] alone. *)
Example manifest_scenario :
  let st :=
    ExtractAuth.extract_files_with "/root" Examples.manifest_root "2024-01-01 00:00:00"
      ["m.ts"; "n.ts"] [] in
  ExtractAuth.found_files st = ["m.ts"] ∧
  ExtractAuth.not_found_files st = ["n.ts"] ∧
  ExtractAuth.opened st = ["m.ts"] ∧
  ExtractAuth.missing_list (ExtractAuth.not_found_files st) =
    [nl +:+ "Missing files:" +:+ nl; "- n.ts" +:+ nl].
Proof. cbv zeta. split_and!; vm_compute; reflexivity. Qed.


(** * Further properties of the code *)

(** ** Lines and text *)

Lemma rev_app_spec (a b : string) : String.rev_app a b = String.rev a +:+ b.
Proof.
  revert b. induction a as [|c a IH]; intros b; [done|].
  unfold String.rev. cbn [String.rev_app].
  rewrite (IH (String c b)), (IH (String c "")), str_app_assoc. done.
Qed.

Lemma rev_cons (c : ascii) (a : string) : String.rev (String c a) = String.rev a +:+ String c "".
Proof. unfold String.rev at 1. cbn [String.rev_app]. apply rev_app_spec. Qed.





(** ** Excluded directories and the walk *)

Section strip_excluded_walk.
Import ExtractCode Views.
Context (code_extensions exclude_dirs : gset string).

Lemma strip_excluded_name c : name (strip_excluded exclude_dirs c) = name c.
Proof. by destruct c. Qed.

Lemma strip_excluded_is_dir c : is_dir (strip_excluded exclude_dirs c) = is_dir c.
Proof. by destruct c. Qed.

Lemma kept_entries_nondirs children :
  filter (λ c, ¬ is_dir c) (kept_entries exclude_dirs children) = filter (λ c, ¬ is_dir c) children.
Proof.
  induction children as [|c children IH]; [done|].
  unfold Views.kept_entries in *. cbn [omap list_omap]. rewrite filter_cons.
  destruct c as [nm data|nm readable cs]; cbn [is_dir name].
  - rewrite bool_decide_false by (by intros [[] _]). cbn [strip_excluded].
    rewrite filter_cons. rewrite !decide_True by naive_solver. by rewrite IH.
  - rewrite decide_False by naive_solver.
    case_bool_decide; [done|]. rewrite filter_cons.
    rewrite decide_False; [done|]. cbn. naive_solver.
Qed.

Lemma kept_entries_prune children :
  prune exclude_dirs (name <$> filter (λ c, is_dir c) (kept_entries exclude_dirs children)) =
  prune exclude_dirs (name <$> filter (λ c, is_dir c) children).
Proof.
  induction children as [|c children IH]; [done|].
  unfold Views.kept_entries, prune in *. cbn [omap list_omap]. rewrite (filter_cons _ c).
  destruct c as [nm data|nm readable cs]; cbn [is_dir name].
  - rewrite bool_decide_false by (by intros [[] _]). cbn [strip_excluded].
    rewrite filter_cons. rewrite !decide_False by (by intros []). done.
  - rewrite decide_True by done. rewrite fmap_cons, (filter_cons _ nm). cbn [name].
    case_bool_decide as Hex.
    + destruct Hex as [_ Hex]. rewrite decide_False by (by intros Hnm). done.
    + rewrite filter_cons, decide_True by done.
      rewrite fmap_cons, filter_cons. cbn [name strip_excluded].
      rewrite !decide_True by naive_solver. by rewrite IH.
Qed.

Lemma kept_entries_resolve children d :
  d ∉ exclude_dirs →
  resolve (kept_entries exclude_dirs children) d = strip_excluded exclude_dirs <$> resolve children d.
Proof.
  intros Hd. induction children as [|c children IH]; [done|].
  unfold Views.kept_entries in *. cbn [omap list_omap resolve].
  destruct (String.eqb_spec (name c) d) as [Heq|Hne].
  - rewrite bool_decide_false by (rewrite Heq; by intros [_ ?]).
    cbn [resolve]. rewrite strip_excluded_name.
    by destruct (String.eqb_spec (name c) d).
  - case_bool_decide; [done|]. cbn [resolve]. rewrite strip_excluded_name.
    by destruct (String.eqb_spec (name c) d).
Qed.

Lemma step_files_join {A} (g1 g2 : A → list (list string * list string * list node)) l :
  Forall (λ d, step_files <$> g1 d = step_files <$> g2 d) l →
  step_files <$> mjoin (g1 <$> l) = step_files <$> mjoin (g2 <$> l).
Proof.
  induction 1 as [|d l Hd Hl IH]; [done|].
  cbn [fmap list_fmap mjoin list_join]. rewrite !fmap_app. by f_equal.
Qed.

Lemma os_walk_strip_excluded top root :
  step_files <$> os_walk (prune exclude_dirs) root (strip_excluded exclude_dirs top) =
  step_files <$> os_walk (prune exclude_dirs) root top.
Proof.
  revert root. induction top as [nm data|nm readable children IH]
    using node_tree_ind; intros root; [done|].
  destruct readable; [|done].
  cbn [strip_excluded os_walk]. fold (Views.kept_entries exclude_dirs children).
  rewrite !fmap_cons. f_equal.
  { unfold step_files. cbn [fst snd]. by rewrite kept_entries_nondirs. }
  rewrite kept_entries_prune. apply step_files_join.
  apply Forall_forall. intros d [Hd _]%list_elem_of_filter.
  rewrite !assoc_fmap, kept_entries_resolve by done.
  destruct (resolve children d) as [c|] eqn:Hc; [|done].
  apply resolve_Some in Hc as [Hc _]. cbn.
  rewrite strip_excluded_name. rewrite Forall_forall in IH. by apply IH.
Qed.

Lemma matched_files_step_files w1 w2 :
  step_files <$> w1 = step_files <$> w2 →
  matched_files code_extensions w1 = matched_files code_extensions w2.
Proof.
  revert w2. induction w1 as [|s1 w1 IH]; intros [|s2 w2]; try done.
  rewrite !fmap_cons. intros [= Hroot Hfiles Hrest].
  unfold matched_files in *. cbn [fmap list_fmap mjoin list_join].
  rewrite Hroot, Hfiles. f_equal. by apply IH.
Qed.

Lemma walk_state_strip_excluded dir_path :
  walk_state code_extensions exclude_dirs (strip_excluded exclude_dirs dir_path) =
  walk_state code_extensions exclude_dirs dir_path.
Proof.
  rewrite !walk_state_spec. cbv zeta. unfold included_files.
  by rewrite (matched_files_step_files _ _ (os_walk_strip_excluded dir_path [])).
Qed.
End strip_excluded_walk.

(** X2.  The content and the totals of [extract_code_for_directory] do not
    depend on what excluded directories hold: two target directories that
    are the same once their excluded directories are taken out give the same
    sections, the same number of files and the same number of lines. *)
Theorem X2_content_ignores_excluded
    (code_extensions exclude_dirs : gset string)
    (base1 base2 : node) (target1 target2 : string) (dir1 dir2 : node) :
  lookup_child base1 target1 = Some dir1 →
  lookup_child base2 target2 = Some dir2 →
  Views.strip_excluded exclude_dirs dir1 = Views.strip_excluded exclude_dirs dir2 →
  ExtractCode.walk_state code_extensions exclude_dirs dir1 =
    ExtractCode.walk_state code_extensions exclude_dirs dir2 ∧
  (λ info, (ExtractCode.content info, ExtractCode.info_total_files info,
            ExtractCode.info_total_lines info))
    <$> ExtractCode.extract_code_with code_extensions exclude_dirs base1 target1 =
  (λ info, (ExtractCode.content info, ExtractCode.info_total_files info,
            ExtractCode.info_total_lines info))
    <$> ExtractCode.extract_code_with code_extensions exclude_dirs base2 target2.
Proof.
  intros Hdir1 Hdir2 Hstrip.
  assert (ExtractCode.walk_state code_extensions exclude_dirs dir1 =
          ExtractCode.walk_state code_extensions exclude_dirs dir2) as Hstate.
  { rewrite <-(walk_state_strip_excluded _ _ dir1), Hstrip.
    apply walk_state_strip_excluded. }
  split; [done|]. unfold ExtractCode.extract_code_with.
  rewrite Hdir1, Hdir2. cbv zeta. rewrite Hstate.
  by destruct (ExtractCode.total_files _ =? 0).
Qed.

Lemma X2_content_ignores_excluded_witness :
  ∃ dir1 dir2,
    lookup_child Examples.scenario "a" = Some dir1 ∧
    lookup_child Examples.scenario_other "a" = Some dir2 ∧
    Views.strip_excluded Examples.excluded_only dir1 =
      Views.strip_excluded Examples.excluded_only dir2 ∧
    ExtractCode.walk_state Examples.ts_only Examples.excluded_only dir1 =
      ExtractCode.walk_state Examples.ts_only Examples.excluded_only dir2.
Proof.
  destruct (lookup_child Examples.scenario "a") as [dir1|] eqn:Hdir1;
    [|vm_compute in Hdir1; discriminate].
  destruct (lookup_child Examples.scenario_other "a") as [dir2|] eqn:Hdir2;
    [|vm_compute in Hdir2; discriminate].
  assert (Views.strip_excluded Examples.excluded_only dir1 =
          Views.strip_excluded Examples.excluded_only dir2) as Hstrip.
  { vm_compute in Hdir1, Hdir2. injection Hdir1 as <-. injection Hdir2 as <-.
    vm_compute. reflexivity. }
  exists dir1, dir2. split; [reflexivity|]. split; [reflexivity|]. split; [exact Hstrip|].
  exact (proj1 (X2_content_ignores_excluded Examples.ts_only Examples.excluded_only
                  Examples.scenario Examples.scenario_other "a" "a" dir1 dir2
                  Hdir1 Hdir2 Hstrip)).
Defined.

(** ** The files of the content are in the tree *)

Section included_in_tree.
Import ExtractCode.
Context (code_extensions exclude_dirs : gset string).

Lemma included_files_elem walk f :
  f ∈ included_files code_extensions walk ↔
  ∃ step, step ∈ walk ∧ f ∈ included_files code_extensions [step].
Proof.
  induction walk as [|s walk IH].
  { split; [by intros ?%elem_of_nil|]. by intros (step & ?%elem_of_nil & _). }
  change (s :: walk) with ([s] ++ walk).
  rewrite included_files_app, elem_of_app, IH. split.
  - intros [Hf|(step & Hstep & Hf)].
    + exists s. split; [left|done].
    + exists step. split; [by right|done].
  - intros (step & [->|Hstep]%elem_of_cons & Hf); [by left|].
    right. by exists step.
Qed.

Lemma included_files_step root dirs files f :
  f ∈ included_files code_extensions [(root, dirs, files)] →
  ∃ file, file ∈ files ∧ f.1 = root ++ [name file].
Proof.
  intros (m & Hm & Hf & _)%included_files_matched.
  apply matched_files_roots in Hm as (step & ->%list_elem_of_singleton & Hfile & Hparts & _).
  exists m.2. split; [done|]. by rewrite Hf.
Qed.

Lemma entries_loop_entry rel prefix n i (l : list node) G c :
  c ∈ l → name c ∉ exclude_dirs →
  ∃ line,
    (rel ++ [name c], line)
      ∈ entries_loop exclude_dirs rel prefix n i ((λ c, (c, G c)) <$> l).
Proof.
  intros Hc Hex. revert i. induction l as [|c' l IH]; intros i.
  { by apply elem_of_nil in Hc. }
  cbn [fmap list_fmap entries_loop]. apply elem_of_cons in Hc as [<-|Hc].
  - rewrite bool_decide_false by done. cbv zeta. eexists. left.
  - destruct (IH Hc (S i)) as [line Hline]. exists line.
    case_bool_decide; [done|]. cbv zeta. right. apply elem_of_app. by right.
Qed.

Lemma entries_loop_below rel prefix n i (l : list node) G c :
  c ∈ l → name c ∉ exclude_dirs → is_dir c = true →
  ∃ p, ∀ e, e ∈ G c (rel ++ [name c]) p →
            e ∈ entries_loop exclude_dirs rel prefix n i ((λ c, (c, G c)) <$> l).
Proof.
  intros Hc Hex Hdir. revert i. induction l as [|c' l IH]; intros i.
  { by apply elem_of_nil in Hc. }
  cbn [fmap list_fmap entries_loop]. apply elem_of_cons in Hc as [<-|Hc].
  - rewrite bool_decide_false by done. cbv zeta. rewrite Hdir. eexists.
    intros e He. right. apply elem_of_app. left. exact He.
  - destruct (IH Hc (S i)) as [p Hp]. exists p. intros e He.
    case_bool_decide; [by apply Hp|]. cbv zeta. right. apply elem_of_app.
    right. by apply Hp.
Qed.

(** A file with a section is an entry of the tree, unless its own name is
    excluded. *)
Lemma included_files_in_tree top rel prefix f :
  f ∈ included_files code_extensions (os_walk (prune exclude_dirs) rel top) →
  (∀ nm, last f.1 = Some nm → nm ∉ exclude_dirs) →
  ∃ line, (f.1, line) ∈ tree_entries top rel prefix exclude_dirs.
Proof.
  revert rel prefix. induction top as [nm data|nm readable children IH]
    using node_tree_ind; intros rel prefix Hf Hlast.
  { by apply elem_of_nil in Hf. }
  destruct readable; [|by apply elem_of_nil in Hf].
  rewrite tree_entries_Dir.
  apply included_files_elem in Hf as (step & Hstep & Hf).
  cbn [os_walk] in Hstep. apply elem_of_cons in Hstep as [->|Hstep].
  - apply included_files_step in Hf as (file & Hfile & Hparts).
    apply list_elem_of_filter in Hfile as [_ Hfile].
    destruct f as [parts lines]. cbn [fst] in *. subst parts.
    apply entries_loop_entry; [by apply elem_of_stable_sort|].
    apply Hlast. by rewrite last_snoc.
  - apply list_elem_of_join in Hstep as (steps & Hstep & Hsteps).
    apply list_elem_of_fmap in Hsteps as (d & -> & Hd).
    apply list_elem_of_filter in Hd as [Hd _].
    rewrite assoc_fmap in Hstep.
    destruct (resolve children d) as [c|] eqn:Hc; [|by apply elem_of_nil in Hstep].
    apply resolve_Some in Hc as [Hc <-]. cbn in Hstep.
    assert (is_dir c = true) as Hdir.
    { destruct c; [by apply elem_of_nil in Hstep|done]. }
    destruct (entries_loop_below rel prefix (length children) 0
                (stable_sort node_leb children)
                (λ c r p, tree_entries c r p exclude_dirs) c) as [p Hp];
      [by apply elem_of_stable_sort|done..|].
    rewrite Forall_forall in IH.
    destruct (IH c Hc (rel ++ [name c]) p) as [line Hline]; [|done|].
    { apply included_files_elem. by exists step. }
    exists line. by apply Hp.
Qed.
End included_in_tree.

(** No excluded name of [extract_code_for_directory] has an extension that
    the function includes. *)
Lemma exclude_dirs_not_matched nm :
  nm ∈ ExtractCode.exclude_dirs →
  lower (splitext_ext nm) ∉ ExtractCode.code_extensions.
Proof.
  unfold ExtractCode.exclude_dirs. rewrite !elem_of_union, !elem_of_singleton.
  intros Hnm. apply (bool_decide_unpack _).
  destruct Hnm as [[[[[[[->| ->]| ->]| ->]| ->]| ->]| ->]| ->]; vm_compute; exact I.
Qed.

(** X3.  Every file whose content is in the report of
    [extract_code_for_directory] is shown in its tree: the tree has a line
    for the entry reached by the same names, and that line ends in the name
    of the file. *)
Theorem X3_included_files_in_tree
    (base_dir : node) (target_dir : string) (info : ExtractCode.code_info) :
  ExtractCode.extract_code_for_directory base_dir target_dir = Some info →
  ∃ dir_path,
    lookup_child base_dir target_dir = Some dir_path ∧
    ∀ f, f ∈ ExtractCode.included_files ExtractCode.code_extensions
               (ExtractCode.os_walk (ExtractCode.prune ExtractCode.exclude_dirs) []
                  dir_path) →
      ∃ line nm indent,
        (f.1, line) ∈ ExtractCode.tree_entries dir_path [] "" ExtractCode.exclude_dirs ∧
        line ∈ ExtractCode.tree info ∧
        last f.1 = Some nm ∧ line = indent +:+ nm.
Proof.
  intros (dir_path & Hdir & _ & ->)%extract_code_with_Some.
  exists dir_path. split; [done|]. intros f Hf. cbn [ExtractCode.tree].
  destruct (included_files_in_tree ExtractCode.code_extensions ExtractCode.exclude_dirs
              dir_path [] "" f Hf) as [line Hline].
  { intros nm Hlast Hex. apply exclude_dirs_not_matched in Hex. apply Hex.
    apply included_files_matched in Hf as (m & Hm & Hparts & _).
    apply matched_files_roots in Hm as (step & _ & _ & Hm & Hext).
    rewrite Hparts, Hm, last_snoc in Hlast. by injection Hlast as <-. }
  pose proof (tree_entries_ok ExtractCode.exclude_dirs dir_path [] "") as Hok.
  rewrite Forall_forall in Hok.
  destruct (Hok _ Hline) as (parts & nm & indent & Hparts & _ & Hindent).
  cbn [fst snd app] in Hparts, Hindent.
  exists line, nm, indent. split_and!; [done| |by rewrite Hparts, last_snoc|done].
  rewrite <-(tree_entries_lines ExtractCode.exclude_dirs dir_path [] "").
  apply list_elem_of_fmap. by exists (f.1, line).
Qed.

Lemma X3_included_files_in_tree_witness :
  ∃ info,
    ExtractCode.extract_code_for_directory Examples.bad_and_good "client" = Some info ∧
    ∃ dir_path, lookup_child Examples.bad_and_good "client" = Some dir_path.
Proof.
  destruct (ExtractCode.extract_code_for_directory Examples.bad_and_good "client")
    as [info|] eqn:Hinfo; [|vm_compute in Hinfo; discriminate].
  exists info. split; [reflexivity|].
  destruct (X3_included_files_in_tree _ _ _ Hinfo) as (dir_path & Hdir & _).
  exists dir_path. exact Hdir.
Defined.

(** ** The order of a level of the tree *)










Section tree_level.
Import ExtractCode.
Context (exclude_dirs : gset string).

End tree_level.


(** ** Files whose name starts with a dot *)

Lemma splitext_dotfile (rest : string) :
  has_char "." rest = false → splitext_ext (String "." rest) = "".
Proof. intros Hrest. unfold splitext_ext. cbn [splitext_go]. by rewrite Hrest. Qed.

(** X5.  [extract_code_for_directory] never includes a file whose name is a
    dot followed by a name without dots, such as [.env]: [os.path.splitext]
    gives such a name the empty extension, so the entry [.env] of
    [code_extensions] matches names like [prod.env] only. *)
Theorem X5_dotfiles_not_included
    (walk : list (list string * list string * list node))
    (f : list string * list string) (rest : string) :
  f ∈ ExtractCode.included_files ExtractCode.code_extensions walk →
  last f.1 = Some (String "." rest) →
  has_char "." rest = true.
Proof.
  intros (m & Hm & Hparts & _)%included_files_matched Hlast.
  apply matched_files_roots in Hm as (step & _ & _ & Hm & Hext).
  rewrite Hparts, Hm, last_snoc in Hlast. injection Hlast as Hname.
  destruct (has_char "." rest) eqn:Hrest; [done|].
  rewrite Hname, splitext_dotfile in Hext by done.
  apply (bool_decide_pack _) in Hext. vm_compute in Hext. done.
Qed.

Lemma X5_dotfiles_not_included_witness :
  has_char "." "eslintrc.json" = true.
Proof.
  apply (X5_dotfiles_not_included
           [([], [], [File ".eslintrc.json" (Text "{}")])]
           ([".eslintrc.json"], ["{}"]) "eslintrc.json").
  - vm_compute. left.
  - reflexivity.
Defined.

(** ** extract_server.py: when the tree raises *)

Section server_tree_listable.
Import ExtractServer Views.
Context (base_path : string) (patterns : list string).







End server_tree_listable.


(** ** extract_server.py: which files get a section *)







(** ** extract_db_code.py: extensions, order and exclusion *)

Lemma dotted_startswith (ext : string) : startswith (ExtractDb.dotted ext) "." = true.
Proof.
  unfold ExtractDb.dotted. destruct (startswith ext ".") eqn:Hext; [done|].
  unfold startswith. rewrite str_app_cons. cbn. by destruct ext.
Qed.

Lemma dotted_idemp (ext : string) :
  ExtractDb.dotted (ExtractDb.dotted ext) = ExtractDb.dotted ext.
Proof. unfold ExtractDb.dotted at 1. by rewrite dotted_startswith. Qed.

Lemma kept_files_app patterns directory dir (exts1 exts2 : list string) :
  ExtractDb.kept_files patterns directory dir (exts1 ++ exts2) =
  ExtractDb.kept_files patterns directory dir exts1 ++
  ExtractDb.kept_files patterns directory dir exts2.
Proof. unfold ExtractDb.kept_files. by rewrite fmap_app, join_app. Qed.

Lemma kept_files_dotted patterns directory dir (file_extensions : list string) :
  ExtractDb.kept_files patterns directory dir (ExtractDb.dotted <$> file_extensions) =
  ExtractDb.kept_files patterns directory dir file_extensions.
Proof.
  unfold ExtractDb.kept_files. rewrite <-list_fmap_compose. f_equal.
  apply list_fmap_ext. intros _ ext _. cbn. by rewrite dotted_idemp.
Qed.

(** X8.  [extract_files] of [extract_db_code.py] returns its records sorted
    by relative path, whatever order the glob and the extension list give.
    An extension may be written with or without its leading dot.  The
    extensions are handled one after the other and nothing is removed
    afterwards: the records for a list of extensions are those of its parts
    taken together, so a file whose name ends in two of the requested
    extensions is recorded, counted and printed twice. *)
Theorem X8_db_records_order_and_extensions
    (patterns : list string) (directory : string) (dir : option node) :
  (∀ file_extensions,
     Sorted String.le
       (ExtractDb.path <$> ExtractDb.extract_files_with patterns directory dir
                             file_extensions)) ∧
  (∀ file_extensions,
     ExtractDb.extract_files_with patterns directory dir
       (ExtractDb.dotted <$> file_extensions) =
     ExtractDb.extract_files_with patterns directory dir file_extensions) ∧
  (∀ exts1 exts2,
     ExtractDb.extract_files_with patterns directory dir (exts1 ++ exts2) ≡ₚ
     ExtractDb.extract_files_with patterns directory dir exts1 ++
     ExtractDb.extract_files_with patterns directory dir exts2).
Proof.
  split_and!.
  - intros file_extensions. destruct dir as [d|]; [|constructor].
    unfold ExtractDb.extract_files_with.
    rewrite <-(stable_sort_fmap ExtractDb.record_leb String.leb ExtractDb.path) by done.
    apply string_sort_Sorted.
  - intros file_extensions. destruct dir as [d|]; [|done].
    unfold ExtractDb.extract_files_with. by rewrite kept_files_dotted.
  - intros exts1 exts2. destruct dir as [d|]; [|done]. unfold ExtractDb.extract_files_with.
    by rewrite !stable_sort_Permutation, kept_files_app, fmap_app.
Qed.

Lemma prefix_inv (p s : string) : String.prefix p s = true → ∃ b, s = p +:+ b.
Proof.
  revert s. induction p as [|c p IH]; intros s Hp; [by exists s|].
  destruct s as [|c' s]; [done|]. cbn [String.prefix] in Hp.
  destruct (ascii_dec c c') as [<-|]; [|done].
  destruct (IH s Hp) as [b ->]. by exists b.
Qed.

Lemma contains_inv (pat s : string) :
  contains pat s = true → ∃ a b, s = a +:+ pat +:+ b.
Proof.
  induction s as [|c s IH]; cbn [contains]; intros [Hp|Hs]%orb_true_iff.
  - apply prefix_inv in Hp as [b ->]. by exists "", b.
  - done.
  - apply prefix_inv in Hp as [b ->]. by exists "", b.
  - destruct (IH Hs) as (a & b & ->). by exists (String c a), b.
Qed.

Lemma contains_iff (pat s : string) :
  contains pat s = true ↔ ∃ a b, s = a +:+ pat +:+ b.
Proof.
  split; [apply contains_inv|]. intros (a & b & ->). apply contains_app.
Qed.

Lemma is_excluded_with_iff (patterns : list string) (file_path : string) :
  ExtractDb.is_excluded_with patterns file_path = true ↔
  ∃ pattern a b, pattern ∈ patterns ∧ file_path = a +:+ pattern +:+ b.
Proof.
  unfold ExtractDb.is_excluded_with. rewrite existsb_exists. split.
  - intros (pattern & Hin%list_elem_of_In & (a & b & ->)%contains_iff). by exists pattern, a, b.
  - intros (pattern & a & b & Hin & ->). exists pattern.
    split; [by apply list_elem_of_In|apply contains_app].
Qed.

Lemma is_excluded_with_app patterns (a path b : string) :
  ExtractDb.is_excluded_with patterns path = true →
  ExtractDb.is_excluded_with patterns (a +:+ path +:+ b) = true.
Proof.
  rewrite !is_excluded_with_iff. intros (pattern & a' & b' & Hin & ->).
  exists pattern, (a +:+ a'), (b' +:+ b). split; [done|]. by rewrite !str_app_assoc.
Qed.

Lemma valid_name_not_absolute (nm : string) :
  Views.valid_name nm = true → startswith nm "/" = false.
Proof.
  unfold Views.valid_name, startswith. destruct nm as [|c nm]; [done|].
  cbn [has_char String.prefix]. destruct (ascii_dec "/" c) as [<-|]; [|done].
  rewrite !andb_true_iff, !negb_true_iff. by intros [_ ?].
Qed.

Lemma path_join_extends (a b : string) :
  startswith b "/" = false → ∃ rest, path_join a b = a +:+ rest.
Proof.
  unfold path_join. intros ->. destruct (_ || _); eauto.
Qed.

Lemma valid_names_child nm readable children c :
  Views.valid_names (Dir nm readable children) = true → c ∈ children →
  Views.valid_name (name c) = true ∧ Views.valid_names c = true.
Proof.
  cbn [Views.valid_names]. rewrite forallb_forall. intros Hall Hc%list_elem_of_In.
  by apply andb_true_iff, Hall.
Qed.

Lemma rlistdir_extends (n : node) :
  ∀ path visited,
    Views.valid_names n = true → visited ∈ rlistdir path n →
    (∃ rest, visited.1 = path +:+ rest) ∧ Views.valid_names visited.2 = true.
Proof.
  induction n as [nm data|nm readable children IH] using node_tree_ind;
    intros path visited Hvalid Hvisited; [by apply elem_of_nil in Hvisited|].
  destruct readable; [|by apply elem_of_nil in Hvisited]. cbn [rlistdir] in Hvisited.
  apply list_elem_of_join in Hvisited as (l & Hvisited & Hl).
  apply list_elem_of_fmap in Hl as (c & -> & Hc).
  destruct (is_dir c && negb (ishidden (name c))); [|by apply elem_of_nil in Hvisited].
  destruct (valid_names_child _ _ _ _ Hvalid Hc) as [Hname Hsub].
  destruct (path_join_extends path (name c) (valid_name_not_absolute _ Hname)) as [rest Hrest].
  apply elem_of_cons in Hvisited as [->|Hvisited]; [by eauto|].
  rewrite Forall_forall in IH.
  destruct (IH c Hc _ _ Hsub Hvisited) as [[rest' ->] ?]. split; [|done].
  exists (rest +:+ rest'). by rewrite Hrest, str_app_assoc.
Qed.

Lemma glob_recursive_extends path n ext file :
  Views.valid_names n = true → file ∈ glob_recursive path n ext →
  ∃ rest, file.1 = path +:+ rest.
Proof.
  unfold glob_recursive. intros Hvalid (files & Hfile & Hfiles)%list_elem_of_join.
  apply list_elem_of_fmap in Hfiles as (visited & -> & Hvisited).
  assert ((∃ rest, visited.1 = path +:+ rest) ∧ Views.valid_names visited.2 = true)
    as [[rest Hrest] Hsub].
  { apply elem_of_cons in Hvisited as [->|Hvisited]; [|by eapply rlistdir_extends].
    split; [|done]. exists "". by rewrite str_app_nil_r. }
  unfold glob_in_dir in Hfile. destruct visited as [p d]. cbn [fst snd] in *.
  destruct d as [|nm [] children]; cbn [listdir] in Hfile;
    try by apply elem_of_nil in Hfile.
  apply list_elem_of_fmap in Hfile as (c & -> & [_ Hc]%list_elem_of_filter).
  destruct (valid_names_child _ _ _ _ Hsub Hc) as [Hname _].
  destruct (path_join_extends p (name c) (valid_name_not_absolute _ Hname)) as [rest' ->].
  exists (rest +:+ rest'). by rewrite Hrest, str_app_assoc.
Qed.

(** X9.  [is_excluded] of [extract_db_code.py] holds for exactly the paths
    that have one of the patterns somewhere inside, in a directory name or
    in a file name alike, and it is kept by everything added before or after
    the path.  The test is made on the path that the glob returns, which
    starts with the directory that was asked for: when that directory's own
    path has a pattern inside, every file is skipped, [extract_files]
    returns no record and [main] writes nothing. *)
Theorem X9_db_exclusion_is_by_substring
    (patterns : list string) (directory : string) (dir : node)
    (file_extensions : list string) :
  Views.valid_names dir = true →
  (∀ file_path,
     ExtractDb.is_excluded_with patterns file_path = true ↔
     ∃ pattern a b, pattern ∈ patterns ∧ file_path = a +:+ pattern +:+ b) ∧
  (∀ a file_path b,
     ExtractDb.is_excluded_with patterns file_path = true →
     ExtractDb.is_excluded_with patterns (a +:+ file_path +:+ b) = true) ∧
  (ExtractDb.is_excluded_with patterns directory = true →
   ExtractDb.extract_files_with patterns directory (Some dir) file_extensions = []) ∧
  (ExtractDb.is_excluded directory = true →
   ExtractDb.main directory (Some dir) file_extensions = None).
Proof.
  intros Hvalid.
  assert (∀ ps, ExtractDb.is_excluded_with ps directory = true →
                ExtractDb.extract_files_with ps directory (Some dir) file_extensions = [])
    as Hnone.
  { intros ps Hdir. unfold ExtractDb.extract_files_with.
    replace (ExtractDb.kept_files ps directory dir file_extensions) with
      (@nil (string * node)); [done|].
    symmetry. apply elem_of_nil_inv. intros file [Hkept [ext [_ Hglob]]]%kept_files_spec.
    destruct (glob_recursive_extends _ _ _ _ Hvalid Hglob) as [rest Hrest].
    rewrite Hrest in Hkept.
    pose proof (is_excluded_with_app ps "" directory rest Hdir) as Hex.
    change ("" +:+ directory +:+ rest) with (directory +:+ rest) in Hex. congruence. }
  split_and!.
  - apply is_excluded_with_iff.
  - intros a file_path b. apply is_excluded_with_app.
  - apply Hnone.
  - intros Hdir. unfold ExtractDb.main, ExtractDb.extract_files.
    unfold ExtractDb.is_excluded in Hdir. by rewrite (Hnone _ Hdir).
Qed.

Lemma X9_db_exclusion_is_by_substring_witness :
  Views.valid_names Examples.manifest_root = true ∧
  ExtractDb.is_excluded "/home/dev/dist/server/database" = true ∧
  ExtractDb.main "/home/dev/dist/server/database" (Some Examples.manifest_root) [".ts"]
    = None ∧
  ExtractDb.main "/home/dev/app/server/database" (Some Examples.manifest_root) [".ts"]
    ≠ None.
Proof.
  split; [reflexivity|]. split; [reflexivity|]. split.
  - apply (X9_db_exclusion_is_by_substring ExtractDb.EXCLUDE_PATTERNS
             "/home/dev/dist/server/database" Examples.manifest_root [".ts"] eq_refl).
    reflexivity.
  - vm_compute. discriminate.
Defined.

(** ** extract_auth.py: the paths that the patterns add *)

Lemma has_char_app (c : ascii) (a b : string) :
  has_char c (a +:+ b) = has_char c a || has_char c b.
Proof.
  induction a as [|x a IH]; [done|].
  rewrite str_app_cons. cbn [has_char]. by rewrite IH, orb_assoc.
Qed.

Lemma has_char_rev (c : ascii) (a : string) : has_char c (String.rev a) = has_char c a.
Proof.
  induction a as [|x a IH]; [done|].
  rewrite rev_cons, has_char_app, IH. cbn [has_char].
  by rewrite orb_false_r, orb_comm.
Qed.

Lemma split_go_has_char (sep : ascii) (s : string) :
  ∀ cur x, has_char sep cur = false → x ∈ split_go sep cur s → has_char sep x = false.
Proof.
  induction s as [|c s IH]; intros cur x Hcur Hx; cbn [split_go] in Hx.
  - apply list_elem_of_singleton in Hx as ->. by rewrite has_char_rev.
  - destruct (Ascii.eqb_spec c sep) as [->|Hne].
    + apply elem_of_cons in Hx as [->|Hx]; [by rewrite has_char_rev|]. by apply (IH "").
    + apply (IH (String c cur)); [|done]. cbn [has_char]. rewrite Hcur, orb_false_r.
      by destruct (Ascii.eqb_spec sep c) as [->|].
Qed.

Lemma split_go_app (sep : ascii) (a b : string) :
  ∀ cur, has_char sep a = false →
         split_go sep cur (a +:+ String sep b) = (String.rev cur +:+ a) :: split_go sep "" b.
Proof.
  induction a as [|c a IH]; intros cur Ha.
  - change ("" +:+ String sep b) with (String sep b). cbn [split_go].
    by rewrite Ascii.eqb_refl, str_app_nil_r.
  - cbn [has_char] in Ha. apply orb_false_iff in Ha as [Hc Ha].
    rewrite str_app_cons. cbn [split_go].
    destruct (Ascii.eqb_spec c sep) as [->|_]; [by rewrite Ascii.eqb_refl in Hc|].
    rewrite (IH (String c cur) Ha), rev_cons, str_app_assoc. done.
Qed.

Lemma split_go_whole (sep : ascii) (s : string) :
  ∀ cur, has_char sep s = false → split_go sep cur s = [String.rev cur +:+ s].
Proof.
  induction s as [|c s IH]; intros cur Hs.
  - cbn [split_go]. by rewrite str_app_nil_r.
  - cbn [has_char] in Hs. apply orb_false_iff in Hs as [Hc Hs]. cbn [split_go].
    destruct (Ascii.eqb_spec c sep) as [->|_]; [by rewrite Ascii.eqb_refl in Hc|].
    rewrite (IH (String c cur) Hs), rev_cons, str_app_assoc. done.
Qed.

(** Splitting what was joined gives the parts back. *)
Lemma split_on_join (sep : ascii) (l : list string) :
  l ≠ [] → Forall (λ x, has_char sep x = false) l →
  split_on sep (str_join (String sep "") l) = l.
Proof.
  unfold split_on, str_join. induction l as [|x l IH]; [done|]. intros _ Hl.
  apply Forall_cons in Hl as [Hx Hl]. destruct l as [|y l].
  - cbn [String.concat]. by rewrite split_go_whole.
  - change (String.concat (String sep "") (x :: y :: l))
      with (x +:+ String sep (String.concat (String sep "") (y :: l))).
    rewrite split_go_app by done. by rewrite IH.
Qed.








Section auth_discovered.
Import ExtractAuth.
Context (root_dir : string) (root : node).


End auth_discovered.



(** ** extract_server.py: the tree inside the report *)

Lemma ends_nl_app (a b : string) :
  (a = "" ∨ ∃ a', a = a' +:+ nl) → (b = "" ∨ ∃ b', b = b' +:+ nl) →
  a +:+ b = "" ∨ ∃ t, a +:+ b = t +:+ nl.
Proof.
  intros Ha [->|[b' ->]].
  - by rewrite str_app_nil_r.
  - right. exists (a +:+ b'). by rewrite str_app_assoc.
Qed.

Lemma tree_loop_ends_nl (entries : list (string * (string → bool → exn + string))) :
  Forall (λ e, ∀ p il t, e.2 p il = inr t → t = "" ∨ ∃ t', t = t' +:+ nl) entries →
  ∀ prefix is_last n i result t,
    (result = "" ∨ ∃ r, result = r +:+ nl) →
    ExtractServer.tree_loop prefix is_last n i entries result = inr t →
    t = "" ∨ ∃ t', t = t' +:+ nl.
Proof.
  induction 1 as [|[entry subtree] entries He _ IH];
    intros prefix is_last n i result t Hresult Ht.
  - by injection Ht as <-.
  - cbn [ExtractServer.tree_loop] in Ht. cbv zeta in Ht.
    destruct (subtree _ _) as [e|sub] eqn:Hsub; [done|]. cbn in Ht.
    apply (IH _ _ _ _ _ _ (ends_nl_app _ _ Hresult (He _ _ _ Hsub)) Ht).
Qed.

Lemma generate_directory_tree_ends_nl base_path patterns (target : node) :
  ∀ target_path prefix is_last t,
    ExtractServer.generate_directory_tree base_path target_path target prefix is_last
      patterns = inr t →
    t = "" ∨ ∃ t', t = t' +:+ nl.
Proof.
  induction target as [nm data|nm readable children IH] using node_tree_ind;
    intros target_path prefix is_last t; cbn [ExtractServer.generate_directory_tree];
    destruct (ExtractServer.excluded patterns target_path);
    try (intros [= <-]; by left).
  - intros [= <-]. right. eexists. by rewrite <-!str_app_assoc.
  - destruct readable; [|done]. cbv zeta. apply tree_loop_ends_nl.
    + apply Forall_stable_sort, Forall_forall.
      intros e [_ (c & -> & Hc)%list_elem_of_fmap]%list_elem_of_filter.
      rewrite Forall_forall in IH. cbn [snd]. intros p il t'. by apply IH.
    + right. eexists. by rewrite <-!str_app_assoc.
Qed.

Lemma split_go_nonempty (sep : ascii) (s : string) : ∀ cur, split_go sep cur s ≠ [].
Proof.
  induction s as [|c s IH]; intros cur; cbn [split_go]; [done|].
  destruct (Ascii.eqb c sep); [done|apply IH].
Qed.

Lemma split_go_last (sep : ascii) (a : string) :
  ∀ cur, last (split_go sep cur (a +:+ String sep "")) = Some "".
Proof.
  induction a as [|c a IH]; intros cur.
  - change ("" +:+ String sep "") with (String sep ""). cbn [split_go].
    by rewrite Ascii.eqb_refl.
  - rewrite str_app_cons. cbn [split_go]. destruct (Ascii.eqb c sep); [|apply IH].
    rewrite last_cons, IH. done.
Qed.

Lemma str_join_prefixed (p : string) (l : list string) :
  l ≠ [] → p +:+ str_join (nl +:+ p) l = str_join nl ((λ x, p +:+ x) <$> l).
Proof.
  unfold str_join. induction l as [|x l IH]; [done|]. intros _. destruct l as [|y l]; [done|].
  change (String.concat (nl +:+ p) (x :: y :: l))
    with (x +:+ (nl +:+ p) +:+ String.concat (nl +:+ p) (y :: l)).
  change (String.concat nl ((λ x, p +:+ x) <$> x :: y :: l))
    with ((p +:+ x) +:+ nl +:+ String.concat nl ((λ x, p +:+ x) <$> y :: l)).
  rewrite <-IH by done. by rewrite !str_app_assoc.
Qed.

(** X11.  The directory structure that [extract_code] of
    [extract_server.py] writes into the report is the tree it generated with
    every line commented out: split at the line breaks, the block is the
    tree's lines, each with [// ] in front.  The tree is empty or ends in a
    line break, so the block always ends in a line that holds [// ] alone. *)
Theorem X11_tree_block_is_commented_tree
    (base_dir : string) (base : node) (target_subfolder : string)
    (file_extensions writes : list string) :
  ExtractServer.extract_code base_dir base target_subfolder file_extensions
    = inr (Some writes) →
  ∃ target dir_tree block,
    lookup_child base target_subfolder = Some target ∧
    ExtractServer.generate_directory_tree base_dir (path_join base_dir target_subfolder)
      target "" true ExtractServer.default_exclude_patterns = inr dir_tree ∧
    (dir_tree = "" ∨ ∃ t, dir_tree = t +:+ nl) ∧
    writes !! 5 = Some block ∧
    split_on LF block = (λ line, "// " +:+ line) <$> split_on LF dir_tree ∧
    last (split_on LF block) = Some "// ".
Proof.
  intros (target & dir_tree & Htarget & _ & Htree & Hwrites)%extract_code_writes.
  pose proof (generate_directory_tree_ends_nl _ _ _ _ _ _ _ Htree) as Hnl.
  assert (split_on LF ("// " +:+ str_join (nl +:+ "// ") (split_on LF dir_tree)) =
          (λ line, "// " +:+ line) <$> split_on LF dir_tree) as Hsplit.
  { rewrite str_join_prefixed by apply split_go_nonempty.
    apply split_on_join.
    - intros Hnil%fmap_nil_inv. by apply split_go_nonempty in Hnil.
    - apply Forall_fmap, Forall_forall. intros x Hx. unfold compose.
      rewrite has_char_app. by rewrite (split_go_has_char LF dir_tree "" x eq_refl Hx). }
  exists target, dir_tree, ("// " +:+ str_join (nl +:+ "// ") (split_on LF dir_tree)).
  split_and!; [done..|by rewrite Hwrites|done|].
  rewrite Hsplit, fmap_last.
  replace (last (split_on LF dir_tree)) with (Some ""); [done|].
  symmetry. destruct Hnl as [->|[t ->]]; [done|]. apply split_go_last.
Qed.

Lemma X11_tree_block_is_commented_tree_witness :
  ∃ writes block,
    ExtractServer.extract_code "/srv" Examples.with_node_modules "client" [".ts"]
      = inr (Some writes) ∧
    writes !! 5 = Some block ∧
    last (split_on LF block) = Some "// ".
Proof.
  destruct (ExtractServer.extract_code "/srv" Examples.with_node_modules "client" [".ts"])
    as [e|[writes|]] eqn:Hwrites; [vm_compute in Hwrites; discriminate| |
      vm_compute in Hwrites; discriminate].
  destruct (X11_tree_block_is_commented_tree _ _ _ _ _ Hwrites)
    as (target & dir_tree & block & _ & _ & _ & Hblock & _ & Hlast).
  exists writes, block. split; [reflexivity|]. split; [exact Hblock|exact Hlast].
Defined.

(** ** extract_auth.py: the order of the two lists, and a run without failures *)



